(** * Terraform entity and dependency-graph extractor

    A shallow embedding of [apps/hello-world/backend/parser.py]
    (class [TerraformParser] and the function [parse_terraform]) and of the
    directory route of [apps/tf-visualizer/backend/api.py], followed by the
    properties of the extractor.

    Conventions of the embedding:
    - Python [str] is [string]; texts are ASCII, so the regular expression
      class [\w] is the set [A-Za-z0-9_].
    - [set(...)] is a [gset string]; [list(set(xs))] is [elements] of it: a
      duplicate-free list in an order fixed by the set alone.
    - [re.findall] is modelled for the constructs the pattern table uses:
      literal characters, [\.], groups and the greedy [\w+].
    - a [dict] is an association list in insertion order; assigning to a key
      that is present replaces the value in place.
    - the values produced by the HCL loader are the tagged union [Value].
    - an exception is an [Outcome]; the parser object and the outside world
      (standard output, the written JSON files) are threaded explicitly. *)

From Stdlib Require Import ZArith Ascii String.
From stdpp Require Import gmap strings list.

Local Open Scope string_scope.
Local Open Scope list_scope.

(** ** Python string primitives *)

Module Str.

(** [text.startswith(p)]; on success the text after [p]. *)
Fixpoint strip_prefix (p text : string) : option string :=
  match p with
  | EmptyString => Some text
  | String a p' =>
      match text with
      | EmptyString => None
      | String b text' => if Ascii.eqb a b then strip_prefix p' text' else None
      end
  end.

Definition startswith (text p : string) : bool :=
  match strip_prefix p text with Some _ => true | None => false end.

(** [p in text] for strings. *)
Fixpoint contains (text p : string) : bool :=
  startswith text p ||
  match text with
  | EmptyString => false
  | String _ text' => contains text' p
  end.

(** [text.replace(old, new)] for a non-empty [old]: the occurrences are
    replaced from left to right and do not overlap. [skip] counts the
    characters of the current occurrence still to be dropped. *)
Fixpoint replace_from (old new text : string) (skip : nat) : string :=
  match text with
  | EmptyString => EmptyString
  | String c text' =>
      match skip with
      | S k => replace_from old new text' k
      | O =>
          if startswith text old
          then new +:+ replace_from old new text' (String.length old - 1)
          else String c (replace_from old new text' 0)
      end
  end.

Definition replace (text old new : string) : string :=
  replace_from old new text 0.

(** [text.split(sep)[0]] for a one-character separator. *)
Fixpoint split_first (sep : ascii) (text : string) : string :=
  match text with
  | EmptyString => EmptyString
  | String c text' =>
      if Ascii.eqb c sep then EmptyString else String c (split_first sep text')
  end.

Fixpoint drop (n : nat) (text : string) : string :=
  match n, text with
  | S k, String _ text' => drop k text'
  | _, _ => text
  end.

Fixpoint take (n : nat) (text : string) : string :=
  match n, text with
  | S k, String c text' => String c (take k text')
  | _, _ => EmptyString
  end.

End Str.

(** ** The fragment of Python's [re] used by the parser

    The nine patterns of [_find_references] use literal characters, the
    escaped dot, capturing groups and the greedy [\w+]. [compile] reads the
    pattern text into tokens; [match_here] is a backtracking matcher for
    them; [findall] scans the text from left to right for non-overlapping
    matches and returns the groups of each. *)

Module Re.

Inductive Tok : Type :=
| Lit (c : ascii)      (* a literal character, [\.] included *)
| WordPlus             (* [\w+] *)
| GroupOpen            (* [(] *)
| GroupClose.          (* [)] *)

(** [\w] on an ASCII character: a letter, a digit or the underscore.
    Python's [\w] also takes the letters and digits beyond ASCII, which
    this class leaves out: what is proved of the matches found in a text
    is proved of ASCII texts. *)
Definition word_char (c : ascii) : bool :=
  let n := nat_of_ascii c in
  (((48 <=? n) && (n <=? 57)) || ((65 <=? n) && (n <=? 90))
   || ((97 <=? n) && (n <=? 122)) || (n =? 95))%nat.

Fixpoint compile (pattern : string) : list Tok :=
  match pattern with
  | EmptyString => []
  | String "\"%char (String "w"%char (String "+"%char rest)) => WordPlus :: compile rest
  | String "\"%char (String c rest) => Lit c :: compile rest
  | String "("%char rest => GroupOpen :: compile rest
  | String ")"%char rest => GroupClose :: compile rest
  | String c rest => Lit c :: compile rest
  end.

(** Length of the longest run of word characters at the start of the text. *)
Fixpoint word_run (text : string) : nat :=
  match text with
  | String c text' => if word_char c then S (word_run text') else 0
  | EmptyString => 0
  end.

(** The text captured so far by the group that is open, if one is. *)
Definition capture (cur : option string) (s : string) : option string :=
  match cur with
  | Some g => Some (g +:+ s)
  | None => None
  end.

(** Greedy choice with backtracking: the first of [f n], [f (n-1)], ...,
    [f 1] that succeeds. *)
Fixpoint first_of {A} (f : nat -> option A) (n : nat) : option A :=
  match n with
  | O => None
  | S k => match f n with Some r => Some r | None => first_of f k end
  end.

(** [match_here p text cur groups]: match the tokens [p] at the start of
    [text]; on success the captured groups and the text left. *)
Fixpoint match_here (p : list Tok) (text : string)
    (cur : option string) (groups : list string) : option (list string * string) :=
  match p with
  | [] => Some (groups, text)
  | GroupOpen :: p' => match_here p' text (Some EmptyString) groups
  | GroupClose :: p' =>
      match_here p' text None (groups ++ [default EmptyString cur])
  | Lit c :: p' =>
      match text with
      | String d text' =>
          if Ascii.eqb c d
          then match_here p' text' (capture cur (String c EmptyString)) groups
          else None
      | EmptyString => None
      end
  | WordPlus :: p' =>
      first_of
        (fun k => match_here p' (Str.drop k text) (capture cur (Str.take k text)) groups)
        (word_run text)
  end.

(** [re.findall]: [skip] counts the characters of the last match still to
    be passed over. None of the patterns matches the empty string. *)
Fixpoint findall_from (p : list Tok) (text : string) (skip : nat) : list (list string) :=
  match text with
  | EmptyString => []
  | String _ text' =>
      match skip with
      | S k => findall_from p text' k
      | O =>
          match match_here p text None [] with
          | Some (groups, rest) =>
              groups :: findall_from p text' (String.length text - String.length rest - 1)
          | None => findall_from p text' 0
          end
      end
  end.

Definition findall (pattern text : string) : list (list string) :=
  findall_from (compile pattern) text 0.

End Re.

(** ** [TerraformParser._find_references] *)

(** The table [patterns] of the source, in its order. *)
Definition patterns : list (string * string) :=
  [ ("(aws_\w+)\.(\w+)", "resource");
    ("(azurerm_\w+)\.(\w+)", "resource");
    ("(google_\w+)\.(\w+)", "resource");
    ("resource\.(\w+)\.(\w+)", "resource");
    ("data\.(\w+)\.(\w+)", "data");
    ("module\.(\w+)", "module");
    ("var\.(\w+)", "var");
    ("local\.(\w+)", "local");
    ("output\.(\w+)", "output") ].

(** The body of the loop over the matches of one pattern: a match with two
    groups is a tuple, a match with one group is a string. *)
Definition refs_of_match (pattern prefix_type : string) (m : list string) : list string :=
  match m with
  | [m0; m1] =>
      if String.eqb prefix_type "resource" && negb (Str.startswith pattern "resource")
      then ["resource." +:+ m0 +:+ "." +:+ m1]
      else [prefix_type +:+ "." +:+ m0 +:+ "." +:+ m1]
  | [m0] => [prefix_type +:+ "." +:+ m0]
  | _ => []
  end.

Definition refs_of_pattern (text : string) (row : string * string) : list string :=
  concat (map (refs_of_match row.1 row.2) (Re.findall row.1 text)).

Definition strip_interpolation (text : string) : string :=
  Str.replace (Str.replace text "${" "") "}" "".

(** The list [refs] before the final [list(set(refs))]. *)
Definition raw_references (text : string) : list string :=
  concat (map (refs_of_pattern (strip_interpolation text)) patterns).

Definition py_list_set (xs : list string) : list string :=
  elements (list_to_set xs : gset string).

Definition _find_references (text : string) : list string :=
  py_list_set (raw_references text).

(** ** Values of the HCL loader, exceptions *)

(** What [hcl2.loads] and the block bodies are made of. [VNum] stands for
    every number: the parser only ever asks whether a value is a string, a
    mapping or a sequence. *)
#[local] Unset Elimination Schemes.
Inductive Value : Type :=
| VStr (s : string)
| VNum (n : Z)
| VBool (b : bool)
| VNone
| VDict (items : list (string * Value))
| VList (elems : list Value).
#[local] Set Elimination Schemes.

Inductive Exn : Type :=
| LarkError (msg : string)
| JSONDecodeError (msg : string)
| TypeError (msg : string)
| AttributeError (msg : string)
| OSError (msg : string).

Inductive Outcome (A : Type) : Type :=
| Return (a : A)
| Raise (e : Exn).
Arguments Return {A} a.
Arguments Raise {A} e.

Definition obind {A B} (m : Outcome A) (k : A -> Outcome B) : Outcome B :=
  match m with
  | Return a => k a
  | Raise e => Raise e
  end.

Declare Scope outcome_scope.
Delimit Scope outcome_scope with outcome.
Notation "'let?' x ':=' m 'in' k" := (obind m (fun x => k))
  (at level 10, x pattern, m at level 100, k at level 200)
  : outcome_scope.

(** [d[key]] and [key in d] on a dict. *)
Fixpoint dict_get {V} (d : list (string * V)) (key : string) : option V :=
  match d with
  | [] => None
  | (k, v) :: d' => if String.eqb k key then Some v else dict_get d' key
  end.

(** [d[key] = v]: a present key keeps its place, a new key goes last. *)
Fixpoint dict_set {V} (d : list (string * V)) (key : string) (v : V) : list (string * V) :=
  match d with
  | [] => [(key, v)]
  | (k, w) :: d' => if String.eqb k key then (k, v) :: d' else (k, w) :: dict_set d' key v
  end.

Fixpoint chars (s : string) : list string :=
  match s with
  | EmptyString => []
  | String c s' => String c EmptyString :: chars s'
  end.

(** [for x in v]: a list gives its items, a dict its keys, a string its
    characters; nothing else is iterable. *)
Definition py_iter (v : Value) : Outcome (list Value) :=
  match v with
  | VList elems => Return elems
  | VDict items => Return (map (fun kv => VStr kv.1) items)
  | VStr s => Return (map VStr (chars s))
  | _ => Raise (TypeError "object is not iterable")
  end.

(** [v.items()] *)
Definition py_items (v : Value) : Outcome (list (string * Value)) :=
  match v with
  | VDict items => Return items
  | _ => Raise (AttributeError "object has no attribute 'items'")
  end.

Definition is_str (v : Value) : option string :=
  match v with VStr s => Some s | _ => None end.

(** The items of [config["depends_on"]] that are strings. *)
Definition explicit_depends_on (items : list (string * Value)) : Outcome (list string) :=
  match dict_get items "depends_on" with
  | Some d => obind (py_iter d) (fun xs => Return (omap is_str xs))
  | None => Return []
  end.

(** ** [TerraformParser._extract_dependencies] *)

Local Open Scope outcome_scope.

(** The loop over [config.items()], with the recursive call for a nested
    mapping as [extract]. *)
Section Scan.

Variable extract : Value -> Outcome (list string).

(** One item of a list value. *)
Definition scan_item (item : Value) : Outcome (list string) :=
  match item with
  | VStr s => Return (_find_references s)
  | VDict _ => extract item
  | _ => Return []
  end.

Fixpoint scan_list (l : list Value) : Outcome (list string) :=
  match l with
  | [] => Return []
  | item :: l' =>
      let? refs := scan_item item in
      let? more := scan_list l' in
      Return (refs ++ more)
  end.

(** One attribute value. *)
Definition scan_value (value : Value) : Outcome (list string) :=
  match value with
  | VStr s => Return (_find_references s)
  | VDict _ => extract value
  | VList elems => scan_list elems
  | _ => Return []
  end.

Fixpoint scan_items (kvs : list (string * Value)) : Outcome (list string) :=
  match kvs with
  | [] => Return []
  | (_key, value) :: kvs' =>
      let? here := scan_value value in
      let? later := scan_items kvs' in
      Return (here ++ later)
  end.

End Scan.

Fixpoint _extract_dependencies (config : Value) : Outcome (list string) :=
  match config with
  | VDict items =>
      let? deps := explicit_depends_on items in
      let? found := scan_items _extract_dependencies items in
      Return (py_list_set (deps ++ found))
  | VStr s =>
      if Str.contains s "depends_on"
      then Raise (TypeError "string indices must be integers")
      else Raise (AttributeError "'str' object has no attribute 'items'")
  | VList elems =>
      if existsb (fun v => match v with VStr s => String.eqb s "depends_on" | _ => false end) elems
      then Raise (TypeError "list indices must be integers or slices, not str")
      else Raise (AttributeError "'list' object has no attribute 'items'")
  | _ => Raise (TypeError "argument is not iterable")
  end.

Local Close Scope outcome_scope.

(** ** Entities, relationships and the result document *)

Record Position : Type := { pos_x : Z; pos_y : Z }.

(** The dataclass [TerraformEntity]. *)
Record TerraformEntity : Type := {
  id : string;
  type : string;
  category : string;
  name : string;
  provider : option string;
  attributes : Value;
  dependencies : list string;
  position : option Position
}.

(** A relationship dict; [kind] is its key ["type"]. *)
Record Relationship : Type := { source : string; target : string; kind : string }.

Record Metadata : Type := {
  total_files : nat;
  total_entities : nat;
  total_relationships : nat
}.

(** The dict returned by [parse_directory]. [json.dump] is a function of
    it, so a written JSON document is identified with the value dumped. *)
Record GraphResult : Type := {
  result_entities : list TerraformEntity;
  result_relationships : list Relationship;
  metadata : Metadata
}.

(** ** The outside world *)

(** What [open], [read] and [hcl2.loads] do on one file. *)
Inductive LoadOutcome : Type :=
| Loaded (parsed : list (string * Value))
| LoadFails (e : Exn).

(** What a path names. For a directory, [tf_files] are the files that
    [rglob("*.tf")] enumerates below it, in its enumeration order. *)
Inductive PathKind : Type :=
| Missing
| NotADirectory
| Directory (tf_files : list (string * LoadOutcome)).

Definition FileSystem : Type := string -> PathKind.

(** [Path.rglob] yields nothing for a path that is not a directory. *)
Definition rglob_tf (fs : FileSystem) (dir : string) : list (string * LoadOutcome) :=
  match fs dir with
  | Directory tf_files => tf_files
  | _ => []
  end.


(** What [output_file.parent.mkdir(parents=True, exist_ok=True)] and
    [open(output_file, "w")] do for a path: one of them raises an
    [OSError], or the document is written; [after] is then the file system
    as the next [rglob] finds it. *)
Inductive WriteOutcome : Type :=
| WriteFails (msg : string)
| Written (after : FileSystem).

Definition Writer : Type := string -> WriteOutcome.

(** The file system once the write to [path] has been tried. *)
Definition after_write (os : Writer) (fs : FileSystem) (path : string) : FileSystem :=
  match os path with
  | Written after => after
  | WriteFails _ => fs
  end.

Record World : Type := {
  w_stdout : list string;
  w_disk : list (string * GraphResult)
}.

(** The parser object ([terraform_dir], [entities], [relationships])
    together with the world its methods act on. *)
Record State : Type := {
  terraform_dir : string;
  entities : list (string * TerraformEntity);
  relationships : list Relationship;
  stdout : list string;
  disk : list (string * GraphResult)
}.

Definition __init__ (dir : string) (w : World) : State :=
  {| terraform_dir := dir; entities := []; relationships := [];
     stdout := w_stdout w; disk := w_disk w |}.

Definition world_of (st : State) : World :=
  {| w_stdout := stdout st; w_disk := disk st |}.

(** ** State and exceptions *)

Definition M (A : Type) : Type := State -> Outcome A * State.

Definition ret {A} (a : A) : M A := fun st => (Return a, st).

Definition bind {A B} (m : M A) (k : A -> M B) : M B :=
  fun st =>
    match m st with
    | (Return a, st') => k a st'
    | (Raise e, st') => (Raise e, st')
    end.

Definition lift {A} (o : Outcome A) : M A := fun st => (o, st).

Declare Scope parser_scope.
Delimit Scope parser_scope with parser.
Notation "'let*' x ':=' m 'in' k" := (bind m (fun x => k))
  (at level 10, x pattern, m at level 100, k at level 200) : parser_scope.

Local Open Scope parser_scope.

Fixpoint for_each {X} (xs : list X) (body : X -> M unit) : M unit :=
  match xs with
  | [] => ret tt
  | x :: xs' => let* _ := body x in for_each xs' body
  end.

(** [try: body except (kinds): handler]; the mutations made by [body]
    before it raised are kept. *)
Definition try_except {A} (body : M A) (handler : Exn -> option (M A)) : M A :=
  fun st =>
    match body st with
    | (Raise e, st') =>
        match handler e with
        | Some h => h st'
        | None => (Raise e, st')
        end
    | r => r
    end.

(** [self.entities[entity_id] = entity] *)
Definition set_entity (entity_id : string) (entity : TerraformEntity) : M unit :=
  fun st =>
    (Return tt,
     {| terraform_dir := terraform_dir st;
        entities := dict_set (entities st) entity_id entity;
        relationships := relationships st;
        stdout := stdout st; disk := disk st |}).

(** [self.relationships.append(r)] *)
Definition append_relationship (r : Relationship) : M unit :=
  fun st =>
    (Return tt,
     {| terraform_dir := terraform_dir st;
        entities := entities st;
        relationships := relationships st ++ [r];
        stdout := stdout st; disk := disk st |}).

Definition print (line : string) : M unit :=
  fun st =>
    (Return tt,
     {| terraform_dir := terraform_dir st;
        entities := entities st;
        relationships := relationships st;
        stdout := stdout st ++ [line]; disk := disk st |}).

(** The directories of [path] are made, the file is opened for writing
    and [json.dump(result, f)] fills it. *)
Definition write_json (os : Writer) (path : string) (result : GraphResult) : M unit :=
  fun st =>
    match os path with
    | WriteFails msg => (Raise (OSError msg), st)
    | Written _ =>
        (Return tt,
         {| terraform_dir := terraform_dir st;
            entities := entities st;
            relationships := relationships st;
            stdout := stdout st; disk := dict_set (disk st) path result |})
    end.

(** The loop [for dep in deps: self.relationships.append(...)]. *)
Definition create_relationships (entity_id : string) (deps : list string) (k : string) : M unit :=
  for_each deps (fun dep =>
    append_relationship {| source := entity_id; target := dep; kind := k |}).

(** ** The six extraction routines *)

Definition _extract_resources (resources : Value) : M unit :=
  let* blocks := lift (py_iter resources) in
  for_each blocks (fun resource =>
    let* by_type := lift (py_items resource) in
    for_each by_type (fun '(resource_type, instances) =>
      let* by_name := lift (py_items instances) in
      for_each by_name (fun '(name_, config) =>
        let entity_id := "resource." +:+ resource_type +:+ "." +:+ name_ in
        let provider_ := Str.split_first "_" resource_type in
        let* deps := lift (_extract_dependencies config) in
        let entity :=
          {| id := entity_id; type := resource_type; category := "resource";
             name := name_; provider := Some provider_; attributes := config;
             dependencies := deps; position := None |} in
        let* _ := set_entity entity_id entity in
        create_relationships entity_id deps "depends_on"))).

Definition _extract_data_sources (data_sources : Value) : M unit :=
  let* blocks := lift (py_iter data_sources) in
  for_each blocks (fun data =>
    let* by_type := lift (py_items data) in
    for_each by_type (fun '(data_type, instances) =>
      let* by_name := lift (py_items instances) in
      for_each by_name (fun '(name_, config) =>
        let entity_id := "data." +:+ data_type +:+ "." +:+ name_ in
        let provider_ := Str.split_first "_" data_type in
        let* deps := lift (_extract_dependencies config) in
        let entity :=
          {| id := entity_id; type := data_type; category := "data";
             name := name_; provider := Some provider_; attributes := config;
             dependencies := deps; position := None |} in
        let* _ := set_entity entity_id entity in
        create_relationships entity_id deps "depends_on"))).

Definition _extract_modules (modules : Value) : M unit :=
  let* blocks := lift (py_iter modules) in
  for_each blocks (fun module =>
    let* by_name := lift (py_items module) in
    for_each by_name (fun '(name_, config) =>
      let entity_id := "module." +:+ name_ in
      let* deps := lift (_extract_dependencies config) in
      let entity :=
        {| id := entity_id; type := "module"; category := "module";
           name := name_; provider := None; attributes := config;
           dependencies := deps; position := None |} in
      let* _ := set_entity entity_id entity in
      create_relationships entity_id deps "depends_on")).

Definition _extract_variables (variables : Value) : M unit :=
  let* blocks := lift (py_iter variables) in
  for_each blocks (fun var =>
    let* by_name := lift (py_items var) in
    for_each by_name (fun '(name_, config) =>
      let entity_id := "var." +:+ name_ in
      let entity :=
        {| id := entity_id; type := "variable"; category := "variable";
           name := name_; provider := None; attributes := config;
           dependencies := []; position := None |} in
      set_entity entity_id entity)).

Definition _extract_outputs (outputs : Value) : M unit :=
  let* blocks := lift (py_iter outputs) in
  for_each blocks (fun output =>
    let* by_name := lift (py_items output) in
    for_each by_name (fun '(name_, config) =>
      let entity_id := "output." +:+ name_ in
      let* deps := lift (_extract_dependencies config) in
      let entity :=
        {| id := entity_id; type := "output"; category := "output";
           name := name_; provider := None; attributes := config;
           dependencies := deps; position := None |} in
      let* _ := set_entity entity_id entity in
      create_relationships entity_id deps "references")).

Definition _extract_providers (providers : Value) : M unit :=
  let* blocks := lift (py_iter providers) in
  for_each blocks (fun provider_block =>
    let* by_name := lift (py_items provider_block) in
    for_each by_name (fun '(name_, config) =>
      let entity_id := "provider." +:+ name_ in
      let entity :=
        {| id := entity_id; type := "provider"; category := "provider";
           name := name_; provider := Some name_; attributes := config;
           dependencies := []; position := None |} in
      set_entity entity_id entity)).

(** ** [_parse_file] and [parse_directory] *)

(** [if key in parsed: extract(parsed[key])] *)
Definition when_present (parsed : list (string * Value)) (key : string)
    (extract : Value -> M unit) : M unit :=
  match dict_get parsed key with
  | Some v => extract v
  | None => ret tt
  end.

Definition _parse_file (file : string * LoadOutcome) : M unit :=
  let '(file_path, load) := file in
  try_except
    (let* parsed := lift (match load with
                          | Loaded parsed => Return parsed
                          | LoadFails e => Raise e
                          end) in
     let* _ := when_present parsed "resource" _extract_resources in
     let* _ := when_present parsed "data" _extract_data_sources in
     let* _ := when_present parsed "module" _extract_modules in
     let* _ := when_present parsed "variable" _extract_variables in
     let* _ := when_present parsed "output" _extract_outputs in
     when_present parsed "provider" _extract_providers)
    (fun e =>
       match e with
       | LarkError msg | JSONDecodeError msg =>
           Some (print ("Error parsing " +:+ file_path +:+ ": " +:+ msg))
       | _ => None
       end).

(** The dict that [parse_directory] returns, as it reads when it is
    returned: the entities are copies ([asdict]), the counts are numbers,
    and ["relationships"] is the list object of the parser itself. *)
Definition graph_result (tf_files : list (string * LoadOutcome)) (st : State) : GraphResult :=
  {| result_entities := map snd (entities st);
     result_relationships := relationships st;
     metadata :=
       {| total_files := length tf_files;
          total_entities := length (entities st);
          total_relationships := length (relationships st) |} |}.

(** A dict returned earlier, as it reads once the parser is in the state
    [st]: its ["relationships"] follow the parser's list. *)
Definition read_at (st : State) (g : GraphResult) : GraphResult :=
  {| result_entities := result_entities g;
     result_relationships := relationships st;
     metadata := metadata g |}.

Definition parse_directory (fs : FileSystem) : M GraphResult :=
  fun st =>
    let tf_files := rglob_tf fs (terraform_dir st) in
    (let* _ := for_each tf_files _parse_file in
     fun st' => (Return (graph_result tf_files st'), st')) st.

(** ** [calculate_layout] *)

(** The dict [categories]: each category, in first-seen order, with the
    registry keys of its entities. *)
Definition group_by_category (ents : list (string * TerraformEntity))
    : list (string * list string) :=
  fold_left
    (fun categories '(key, entity) =>
       let categories :=
         match dict_get categories (category entity) with
         | None => dict_set categories (category entity) []
         | Some _ => categories
         end in
       match dict_get categories (category entity) with
       | Some members => dict_set categories (category entity) (members ++ [key])
       | None => categories
       end)
    ents [].

Definition with_position (pos : Position) (e : TerraformEntity) : TerraformEntity :=
  {| id := id e; type := type e; category := category e; name := name e;
     provider := provider e; attributes := attributes e;
     dependencies := dependencies e; position := Some pos |}.

(** [entity.position = pos] on the entity stored under [key]. *)
Fixpoint set_position (key : string) (pos : Position)
    (ents : list (string * TerraformEntity)) : list (string * TerraformEntity) :=
  match ents with
  | [] => []
  | (k, e) :: ents' =>
      if String.eqb k key then (k, with_position pos e) :: ents'
      else (k, e) :: set_position key pos ents'
  end.

Fixpoint place_rows (x_offset y_offset : Z) (members : list string)
    (ents : list (string * TerraformEntity)) : list (string * TerraformEntity) :=
  match members with
  | [] => ents
  | key :: members' =>
      place_rows x_offset (y_offset + 1) members'
        (set_position key {| pos_x := x_offset * 250; pos_y := y_offset * 150 |} ents)
  end.

Fixpoint place_columns (x_offset : Z) (categories : list (string * list string))
    (ents : list (string * TerraformEntity)) : list (string * TerraformEntity) :=
  match categories with
  | [] => ents
  | (_, members) :: categories' =>
      place_columns (x_offset + 1) categories' (place_rows x_offset 0 members ents)
  end.

Definition calculate_layout : M unit :=
  fun st =>
    (Return tt,
     {| terraform_dir := terraform_dir st;
        entities := place_columns 0 (group_by_category (entities st)) (entities st);
        relationships := relationships st;
        stdout := stdout st; disk := disk st |}).

(** ** [save_to_json] and [parse_terraform] *)

Definition save_to_json (os : Writer) (fs : FileSystem) (output_path : string) : M unit :=
  let* _ := calculate_layout in
  let* result := parse_directory fs in
  let* _ := write_json os output_path result in
  print ("Terraform entities saved to " +:+ output_path).

(** The second [parse_directory] scans the directory as it is once the
    document has been written. *)
Definition parse_terraform (os : Writer) (fs : FileSystem) (dir output_path : string)
    (w : World) : Outcome GraphResult * World :=
  let '(r, st) :=
    (let* _ := save_to_json os fs output_path in
     parse_directory (after_write os fs output_path)) (__init__ dir w) in
  (r, world_of st).

Local Close Scope parser_scope.

(** ** The directory route of the service ([api.py])

    [parse_terraform_directory] from the point where [directory] has been
    read from the request. The helper [parse_terraform] of that module
    drives the parser copy of its own application, so the route takes it as
    [api_parse_terraform]. *)



Definition path_mappings : list (string * string) :=
  [ ("terraform", "/app/project/terraform");
    ("helm", "/app/project/helm");
    ("test", "/app/test-terraform") ].

Definition map_directory (directory : string) : string :=
  match dict_get path_mappings directory with
  | Some mapped => mapped
  | None =>
      if Str.startswith directory "project/" then "/app/" +:+ directory else directory
  end.

Section Route.

Variable api_parse_terraform :
  FileSystem -> string -> string -> World -> Outcome GraphResult * World.


End Route.

(** ** The vocabulary of the specification *)

(** The resolver of the design: it recurses through mappings and
    sequences, scans the string leaves and gives nothing for the other
    leaves. *)
Fixpoint resolve (value : Value) : gset string :=
  match value with
  | VStr s => list_to_set (_find_references s)
  | VDict items => ⋃ (map (fun kv => resolve kv.2) items)
  | VList elems => ⋃ (map resolve elems)
  | _ => ∅
  end.

(** The string-valued entries of a block's [depends_on] list. *)
Definition depends_on_strings (items : list (string * Value)) : list string :=
  match dict_get items "depends_on" with
  | Some (VList entries) => omap is_str entries
  | _ => []
  end.

(** The dependency set as the design words it: the [depends_on] strings
    and [resolve] of every other attribute. *)
Definition designed_dependencies (items : list (string * Value)) : gset string :=
  list_to_set (depends_on_strings items)
  ∪ ⋃ (map (fun kv => resolve kv.2)
         (filter (fun kv => kv.1 ≠ "depends_on") items)).

(** The [depends_on] strings of a block and of every mapping nested in it. *)
Fixpoint nested_depends_on (value : Value) : gset string :=
  match value with
  | VDict items =>
      list_to_set (depends_on_strings items)
      ∪ ⋃ (map (fun kv => nested_depends_on kv.2) items)
  | VList elems => ⋃ (map nested_depends_on elems)
  | _ => ∅
  end.

Definition is_list (v : Value) : bool :=
  match v with VList _ => true | _ => false end.

(** Values in which no sequence is an item of a sequence and every
    [depends_on] is a sequence. *)
Fixpoint regular (value : Value) : bool :=
  match value with
  | VDict items =>
      match dict_get items "depends_on" with
      | Some d => is_list d
      | None => true
      end
      && forallb (fun kv => regular kv.2) items
  | VList elems => forallb (fun item => negb (is_list item) && regular item) elems
  | _ => true
  end.

(** What the scan of a value finds, as a set. *)
Definition scan_finds (v : Value) : Prop :=
  regular v = true ->
  exists found,
    scan_value _extract_dependencies v = Return found
    /\ list_to_set found =@{gset string} nested_depends_on v ∪ resolve v.







Fixpoint all_word (s : string) : bool :=
  match s with
  | EmptyString => true
  | String c s' => Re.word_char c && all_word s'
  end.








(** ** Invariants of the parser state *)

(** The entities the six routines build, whatever their position. *)
Inductive extracted : TerraformEntity -> Prop :=
| extracted_resource t n config deps pos :
    _extract_dependencies config = Return deps ->
    extracted {| id := "resource." +:+ t +:+ "." +:+ n; type := t; category := "resource";
                 name := n; provider := Some (Str.split_first "_" t);
                 attributes := config; dependencies := deps; position := pos |}
| extracted_data t n config deps pos :
    _extract_dependencies config = Return deps ->
    extracted {| id := "data." +:+ t +:+ "." +:+ n; type := t; category := "data";
                 name := n; provider := Some (Str.split_first "_" t);
                 attributes := config; dependencies := deps; position := pos |}
| extracted_module n config deps pos :
    _extract_dependencies config = Return deps ->
    extracted {| id := "module." +:+ n; type := "module"; category := "module";
                 name := n; provider := None;
                 attributes := config; dependencies := deps; position := pos |}
| extracted_variable n config pos :
    extracted {| id := "var." +:+ n; type := "variable"; category := "variable";
                 name := n; provider := None;
                 attributes := config; dependencies := []; position := pos |}
| extracted_output n config deps pos :
    _extract_dependencies config = Return deps ->
    extracted {| id := "output." +:+ n; type := "output"; category := "output";
                 name := n; provider := None;
                 attributes := config; dependencies := deps; position := pos |}
| extracted_provider n config pos :
    extracted {| id := "provider." +:+ n; type := "provider"; category := "provider";
                 name := n; provider := Some n;
                 attributes := config; dependencies := []; position := pos |}.

(** The relationships the routines append. *)
Inductive emitted : Relationship -> Prop :=
| emitted_resource t n dep :
    emitted {| source := "resource." +:+ t +:+ "." +:+ n; target := dep; kind := "depends_on" |}
| emitted_data t n dep :
    emitted {| source := "data." +:+ t +:+ "." +:+ n; target := dep; kind := "depends_on" |}
| emitted_module n dep :
    emitted {| source := "module." +:+ n; target := dep; kind := "depends_on" |}
| emitted_output n dep :
    emitted {| source := "output." +:+ n; target := dep; kind := "references" |}.

(** Every entity is stored under its identifier and was built by a
    routine; every relationship was appended by a routine for a source
    that is in the registry. *)
Definition registry_ok (ents : list (string * TerraformEntity))
    (rels : list Relationship) : Prop :=
  Forall (fun kv => id kv.2 = kv.1 /\ extracted kv.2) ents
  /\ Forall (fun r => emitted r /\ is_Some (dict_get ents (source r))) rels.

Definition consistent (st : State) : Prop :=
  registry_ok (entities st) (relationships st).

(** No entity of the registry has a position. *)
Definition unplaced (st : State) : Prop :=
  Forall (fun kv => position kv.2 = None) (entities st).

(** The states a parser object goes through. *)
Inductive reachable : State -> Prop :=
| reachable_init dir w : reachable (__init__ dir w)
| reachable_parse fs st : reachable st -> reachable (parse_directory fs st).2
| reachable_layout st : reachable st -> reachable (calculate_layout st).2
| reachable_save os fs output_path st :
    reachable st -> reachable (save_to_json os fs output_path st).2.

(** Two states with the same parser object. *)
Definition same_parser (st st' : State) : Prop :=
  terraform_dir st = terraform_dir st'
  /\ entities st = entities st'
  /\ relationships st = relationships st'.

(** A computation that takes related states to equal outcomes and
    related states. *)
Definition rel {A} (R : State -> State -> Prop) (m : M A) : Prop :=
  forall st st', R st st' -> (m st).1 = (m st').1 /\ R (m st).2 (m st').2.

(** A relation kept by the three mutations the routines make. *)
Record respected (R : State -> State -> Prop) : Prop := {
  respected_set : forall e, extracted e -> position e = None -> rel R (set_entity (id e) e);
  respected_append : forall r st st',
    emitted r -> is_Some (dict_get (entities st) (source r)) -> R st st' ->
    R (append_relationship r st).2 (append_relationship r st').2;
  respected_print : forall line, rel R (print line)
}.

(** An invariant, as a relation of a state with itself. *)
Definition diagonal (I : State -> Prop) (st st' : State) : Prop := I st /\ st = st'.

(** The second parser has appended the same relationships after [before]. *)
Definition appended (before : list Relationship) (st st' : State) : Prop :=
  terraform_dir st = terraform_dir st'
  /\ relationships st' = before ++ relationships st.

(** The line has been printed. *)
Definition printed (line : string) (st : State) : Prop := line ∈ stdout st.

(** The disk is [d]. *)
Definition disk_is (d : list (string * GraphResult)) (st : State) : Prop := disk st = d.


(** ** Well-formed loader output *)

(** Every [depends_on] the scan meets can be iterated. *)
Fixpoint sound (value : Value) : bool :=
  match value with
  | VDict items =>
      match dict_get items "depends_on" with
      | Some (VNum _) | Some (VBool _) | Some VNone => false
      | _ => true
      end
      && forallb (fun kv => sound kv.2) items
  | VList elems => forallb sound elems
  | _ => true
  end.

Definition sound_block (config : Value) : bool :=
  match config with
  | VDict _ => sound config
  | _ => false
  end.

(** A section: a list of mappings whose values satisfy [ok]. *)
Definition section_of (ok : Value -> bool) (v : Value) : bool :=
  match v with
  | VList blocks =>
      forallb (fun b => match b with
                        | VDict items => forallb (fun kv => ok kv.2) items
                        | _ => false
                        end) blocks
  | _ => false
  end.

(** Type, then name, then body. *)
Definition two_level (instances : Value) : bool :=
  match instances with
  | VDict by_name => forallb (fun kv => sound_block kv.2) by_name
  | _ => false
  end.

Definition section_ok (parsed : list (string * Value)) (key : string)
    (ok : Value -> bool) : bool :=
  match dict_get parsed key with
  | Some v => ok v
  | None => true
  end.

Definition well_formed_file (parsed : list (string * Value)) : bool :=
  section_ok parsed "resource" (section_of two_level)
  && section_ok parsed "data" (section_of two_level)
  && section_ok parsed "module" (section_of sound_block)
  && section_ok parsed "variable" (section_of (fun _ => true))
  && section_ok parsed "output" (section_of sound_block)
  && section_ok parsed "provider" (section_of (fun _ => true)).

(** The parser reads the directory [dir]. *)
Definition in_dir (dir : string) (st : State) : Prop := terraform_dir st = dir.

(** A file that loads into a well-formed structure, or that the loader
    rejects with one of the two exceptions [_parse_file] catches. *)
Definition loadable (file : string * LoadOutcome) : bool :=
  match file.2 with
  | Loaded parsed => well_formed_file parsed
  | LoadFails (LarkError _) | LoadFails (JSONDecodeError _) => true
  | LoadFails _ => false
  end.

(** A computation that never raises. *)
Definition succeeds (m : M unit) : Prop := forall st, (m st).1 = Return tt.

(** The scan of a value returns. *)
Definition scan_returns (v : Value) : Prop :=
  sound v = true -> exists found, scan_value _extract_dependencies v = Return found.

(** ** Auxiliary predicates on texts *)

(** Every character of the text satisfies [ok]. *)
Fixpoint all_chars (ok : ascii -> bool) (s : string) : bool :=
  match s with
  | EmptyString => true
  | String c s' => ok c && all_chars ok s'
  end.




(** ** Sample inputs *)

Module Sample.

Definition world : World := {| w_stdout := []; w_disk := [] |}.

(** A network, a subnet that refers to it in shorthand, and an output. *)
Definition main_tf : list (string * Value) :=
  [ ("resource",
     VList [ VDict [("aws_vpc", VDict [("main", VDict [("cidr_block", VStr "10.0.0.0/16")])])];
             VDict [("aws_subnet",
                     VDict [("public", VDict [("vpc_id", VStr "${aws_vpc.main.id}")])])] ]);
    ("output",
     VList [ VDict [("subnet_id", VDict [("value", VStr "${aws_subnet.public.id}")])] ]) ].

Definition one_file : FileSystem :=
  fun path =>
    if String.eqb path "/tf" then Directory [("/tf/main.tf", Loaded main_tf)] else Missing.

Definition with_broken_file : FileSystem :=
  fun path =>
    if String.eqb path "/tf"
    then Directory [ ("/tf/main.tf", Loaded main_tf);
                     ("/tf/broken.tf", LoadFails (LarkError "Unexpected token")) ]
    else Missing.


(** The fixture of [test_parser.py], as the loader gives it. *)
Definition fixture : list (string * Value) :=
  [ ("provider", VList [VDict [("aws", VDict [("region", VStr "us-east-1")])]]);
    ("variable", VList [VDict [("instance_type", VDict [("default", VStr "t2.micro")])]]);
    ("data",
     VList [ VDict [("aws_ami",
                     VDict [("ubuntu",
                             VDict [ ("most_recent", VBool true);
                                     ("filter",
                                      VList [VDict [ ("name", VStr "name");
                                                     ("values",
                                                      VList [VStr "ubuntu/images/hvm-ssd/ubuntu-focal-20.04-amd64-server-*"]) ]]) ])])] ]);
    ("resource",
     VList [ VDict [("aws_vpc",
                     VDict [("main", VDict [ ("cidr_block", VStr "10.0.0.0/16");
                                             ("tags", VDict [("Name", VStr "main-vpc")]) ])])];
             VDict [("aws_subnet",
                     VDict [("public", VDict [ ("vpc_id", VStr "${aws_vpc.main.id}");
                                               ("cidr_block", VStr "10.0.1.0/24");
                                               ("tags", VDict [("Name", VStr "public-subnet")]) ])])];
             VDict [("aws_instance",
                     VDict [("web", VDict [ ("ami", VStr "${data.aws_ami.ubuntu.id}");
                                            ("instance_type", VStr "${var.instance_type}");
                                            ("subnet_id", VStr "${aws_subnet.public.id}");
                                            ("tags", VDict [("Name", VStr "web-server")]) ])])] ]);
    ("output", VList [VDict [("instance_id", VDict [("value", VStr "${aws_instance.web.id}")])]]);
    ("module",
     VList [VDict [("security", VDict [ ("source", VStr "./modules/security");
                                        ("vpc_id", VStr "${aws_vpc.main.id}") ])]]) ].

Definition temp_tf_dir : FileSystem :=
  fun path =>
    if String.eqb path "/tmp/tf" then Directory [("/tmp/tf/main.tf", Loaded fixture)]
    else Missing.

Definition empty_dir : FileSystem :=
  fun path => if String.eqb path "/tmp/tf" then Directory [] else Missing.

Definition invalid_hcl : FileSystem :=
  fun path =>
    if String.eqb path "/tmp/tf"
    then Directory [("/tmp/tf/invalid.tf", LoadFails (LarkError "Unexpected token"))]
    else Missing.


(** A block whose only attribute is [depends_on]. *)
Definition explicit_only : list (string * Value) :=
  [("depends_on", VList [VStr "aws_vpc.main"])].

(** A block with a list of lists of references. *)
Definition nested_lists : list (string * Value) :=
  [("security_groups", VList [VList [VStr "aws_security_group.web.id"]])].

(** A block with a reference in a list of mappings and an explicit
    dependency. *)
Definition instance : list (string * Value) :=
  [ ("ami", VStr "${data.aws_ami.ubuntu.id}");
    ("count", VNum 2);
    ("ebs_block_device", VList [VDict [("kms_key_id", VStr "${aws_kms_key.disk.arn}")]]);
    ("depends_on", VList [VStr "${aws_iam_role.node}"]) ].

(** An operating system on which every write succeeds and leaves the
    configuration files of [fs] as they are, and one on which no path can
    be written. *)
Definition keeps (fs : FileSystem) : Writer := fun _ => Written fs.


End Sample.

(** * Vocabulary for further properties *)

(** ** The registry *)

(** ** Further invariants of the registry *)

(** The identifiers of the registry are pairwise distinct. *)
Definition distinct_keys (st : State) : Prop := NoDup (map fst (entities st)).

(** The identifiers [before], in their order, are still the first ones. *)
Definition keeps_order (before : list string) (st : State) : Prop :=
  before `prefix_of` map fst (entities st).

(** The identifier the routines give to an entity of a category. *)
Definition identifier_of (category_ type_ name_ : string) : string :=
  if String.eqb category_ "resource" then "resource." +:+ type_ +:+ "." +:+ name_
  else if String.eqb category_ "data" then "data." +:+ type_ +:+ "." +:+ name_
  else if String.eqb category_ "variable" then "var." +:+ name_
  else category_ +:+ "." +:+ name_.

Definition categories : list string :=
  ["resource"; "data"; "module"; "variable"; "output"; "provider"].

(** The assignments [ops], made in their order on the registry [d]. *)
Fixpoint store_all (ops : list (string * TerraformEntity))
    (d : list (string * TerraformEntity)) : list (string * TerraformEntity) :=
  match ops with
  | [] => d
  | (k, e) :: ops' => store_all ops' (dict_set d k e)
  end.

(** Two parsers of one directory that have made the same assignments, the
    first on the registry [a], the second on the registry [b]. *)
Definition same_assignments (a b : list (string * TerraformEntity))
    (st st' : State) : Prop :=
  terraform_dir st = terraform_dir st'
  /\ exists ops, entities st = store_all ops a /\ entities st' = store_all ops b.

(** The kind of the relationships that start from an entity. *)
Definition edge_kind (category_ : string) : string :=
  if String.eqb category_ "output" then "references" else "depends_on".

Definition edge_of (e : TerraformEntity) (dep : string) : Relationship :=
  {| source := id e; target := dep; kind := edge_kind (category e) |}.

(** Every dependency of every entity of the registry has its relationship. *)
Definition edges_complete (st : State) : Prop :=
  Forall (fun kv => forall dep, dep ∈ dependencies kv.2 -> edge_of kv.2 dep ∈ relationships st)
    (entities st).

(** A relation kept by the declaration of an entity (the assignment to the
    registry followed by the relationships of the entity) and by a print. *)
Record respected_declarations (R : State -> State -> Prop) : Prop := {
  respected_declare : forall e,
    extracted e -> position e = None ->
    rel R (bind (set_entity (id e) e)
                (fun _ => create_relationships (id e) (dependencies e)
                            (edge_kind (category e))));
  respected_diagnostic : forall line, rel R (print line)
}.

(** ** Sections and dependencies *)

(** The top-level keys that [_parse_file] looks at. *)
Definition sections : list string :=
  ["resource"; "data"; "module"; "variable"; "output"; "provider"].

(** Every [depends_on], at every depth, is a list. *)
Fixpoint depends_on_lists (value : Value) : bool :=
  match value with
  | VDict items =>
      match dict_get items "depends_on" with
      | Some d => is_list d
      | None => true
      end
      && forallb (fun kv => depends_on_lists kv.2) items
  | VList elems => forallb depends_on_lists elems
  | _ => true
  end.

(** What the scan of a value finds is a verbatim [depends_on] entry or is
    resolved by the resolver of the design. *)
Definition scan_sound (v : Value) : Prop :=
  depends_on_lists v = true ->
  exists found,
    scan_value _extract_dependencies v = Return found
    /\ forall x, x ∈ found -> x ∈ nested_depends_on v ∪ resolve v.

(** The exceptions that [_parse_file] catches. *)
Definition caught (e : Exn) : bool :=
  match e with
  | LarkError _ | JSONDecodeError _ => true
  | _ => false
  end.

(** ** The grid of the layout *)

(** The body of the first loop of [calculate_layout]. *)
Definition add_to_category (categories : list (string * list string))
    (item : string * TerraformEntity) : list (string * list string) :=
  let '(key, entity) := item in
  let categories :=
    match dict_get categories (category entity) with
    | None => dict_set categories (category entity) []
    | Some _ => categories
    end in
  match dict_get categories (category entity) with
  | Some members => dict_set categories (category entity) (members ++ [key])
  | None => categories
  end.

Definition category_of (item : string * TerraformEntity) : string := category item.2.

(** The registry keys of the entities of a category, in registry order. *)
Definition members_of (c : string) (ents : list (string * TerraformEntity)) : list string :=
  map fst (filter (fun item => category_of item = c) ents).

(** The distinct categories of a list, in the order in which they first
    occur, after those already [seen]. *)
Fixpoint first_seen (seen cats : list string) : list string :=
  match cats with
  | [] => seen
  | c :: cats' => first_seen (if decide (c ∈ seen) then seen else seen ++ [c]) cats'
  end.

Fixpoint index_of (c : string) (l : list string) : nat :=
  match l with
  | [] => 0
  | c' :: l' => if String.eqb c' c then 0 else S (index_of c l')
  end.

Definition occurrences (c : string) (l : list string) : nat :=
  length (filter (fun x => x = c) l).

(** The cell of the grid for the [i]-th entity of a registry whose
    categories are [cats], when its category is [c]: one column for each
    category, in first-seen order, and in a column one row for each entity
    of the category, in registry order. *)
Definition cell (cats : list string) (i : nat) (c : string) : Position :=
  {| pos_x := Z.of_nat (index_of c (first_seen [] cats)) * 250;
     pos_y := Z.of_nat (occurrences c (take i cats)) * 150 |}.

(** ** Helpers of [scripts/generate-deps.py]

    A character stands for a code point; the class [[^a-zA-Z0-9_]] of
    [_mermaid_safe] is the complement of [Re.word_char]. *)

Definition skip_patterns : list string :=
  [ ".git"; "__pycache__"; ".venv"; "venv"; "node_modules"; ".terraform"; "work";
    ".mypy_cache"; ".pytest_cache"; ".ruff_cache"; "coverage"; "dist"; "build" ].

(** [DependencyAnalyzer._should_skip_path], on [str(path)]. *)
Definition _should_skip_path (path : string) : bool :=
  existsb (Str.contains path) skip_patterns.

Definition double_quote : ascii := "034"%char.
Definition newline : ascii := "010"%char.
Definition backslash : ascii := "\"%char.

(** [OutputGenerator._dot_safe] *)
Definition _dot_safe (text : string) : string :=
  Str.replace
    (Str.replace text (String double_quote EmptyString)
       (String backslash (String double_quote EmptyString)))
    (String newline EmptyString) (String backslash (String "n"%char EmptyString)).

(** [OutputGenerator._mermaid_safe] *)
Fixpoint _mermaid_safe (text : string) : string :=
  match text with
  | EmptyString => EmptyString
  | String c text' =>
      String (if Re.word_char c then c else "_"%char) (_mermaid_safe text')
  end.

(** Every double quote comes right after a backslash. *)
Fixpoint quotes_escaped (after_backslash : bool) (s : string) : bool :=
  match s with
  | EmptyString => true
  | String c s' =>
      (negb (Ascii.eqb c double_quote) || after_backslash)
      && quotes_escaped (Ascii.eqb c backslash) s'
  end.

(** ** What a well-formed file declares *)

(** The dependencies of a block; a block that cannot be scanned has none. *)
Definition deps_of (config : Value) : list string :=
  match _extract_dependencies config with
  | Return deps => deps
  | Raise _ => []
  end.

(** The labelled bodies of a section whose blocks have one label, and of
    one whose blocks have a type and a name, in the order of the file. *)
Definition named_blocks (section : Value) : list (string * Value) :=
  match section with
  | VList blocks =>
      concat (map (fun b => match b with VDict by_name => by_name | _ => [] end) blocks)
  | _ => []
  end.

Definition typed_blocks (section : Value) : list (string * (string * Value)) :=
  concat (map (fun '(t, instances) =>
                 match instances with
                 | VDict by_name => map (fun labelled => (t, labelled)) by_name
                 | _ => []
                 end)
            (named_blocks section)).

Definition resource_entity (block : string * (string * Value)) : TerraformEntity :=
  let '(t, (n, config)) := block in
  {| id := "resource." +:+ t +:+ "." +:+ n; type := t; category := "resource";
     name := n; provider := Some (Str.split_first "_" t); attributes := config;
     dependencies := deps_of config; position := None |}.

Definition data_entity (block : string * (string * Value)) : TerraformEntity :=
  let '(t, (n, config)) := block in
  {| id := "data." +:+ t +:+ "." +:+ n; type := t; category := "data";
     name := n; provider := Some (Str.split_first "_" t); attributes := config;
     dependencies := deps_of config; position := None |}.

Definition module_entity (block : string * Value) : TerraformEntity :=
  let '(n, config) := block in
  {| id := "module." +:+ n; type := "module"; category := "module";
     name := n; provider := None; attributes := config;
     dependencies := deps_of config; position := None |}.

Definition variable_entity (block : string * Value) : TerraformEntity :=
  let '(n, config) := block in
  {| id := "var." +:+ n; type := "variable"; category := "variable";
     name := n; provider := None; attributes := config;
     dependencies := []; position := None |}.

Definition output_entity (block : string * Value) : TerraformEntity :=
  let '(n, config) := block in
  {| id := "output." +:+ n; type := "output"; category := "output";
     name := n; provider := None; attributes := config;
     dependencies := deps_of config; position := None |}.

Definition provider_entity (block : string * Value) : TerraformEntity :=
  let '(n, config) := block in
  {| id := "provider." +:+ n; type := "provider"; category := "provider";
     name := n; provider := Some n; attributes := config;
     dependencies := []; position := None |}.

Definition section (parsed : list (string * Value)) (key : string) : Value :=
  default (VList []) (dict_get parsed key).

(** The entities that the blocks of a file describe, block by block, in
    the order in which [_parse_file] goes through the sections. *)
Definition declared (parsed : list (string * Value)) : list TerraformEntity :=
  map resource_entity (typed_blocks (section parsed "resource"))
  ++ map data_entity (typed_blocks (section parsed "data"))
  ++ map module_entity (named_blocks (section parsed "module"))
  ++ map variable_entity (named_blocks (section parsed "variable"))
  ++ map output_entity (named_blocks (section parsed "output"))
  ++ map provider_entity (named_blocks (section parsed "provider")).

(** The parser once an entity has been stored under its identifier and
    its relationships have been appended. *)
Definition declare (st : State) (e : TerraformEntity) : State :=
  {| terraform_dir := terraform_dir st;
     entities := dict_set (entities st) (id e) e;
     relationships := relationships st ++ map (edge_of e) (dependencies e);
     stdout := stdout st; disk := disk st |}.

(** The parser after one extraction of the fixture of [test_parser.py],
    and the result that extraction returns. *)
Module Run.

Definition state : State :=
  (parse_directory Sample.temp_tf_dir (__init__ "/tmp/tf" Sample.world)).2.

Definition result : GraphResult :=
  graph_result (rglob_tf Sample.temp_tf_dir "/tmp/tf") state.

End Run.

(** * Properties *)

#[local] Arguments String.append !_ _ /.
#[local] Set Warnings "-clear-no-such-hyp".

(** ** The tests of the repository on the model *)

Example test_find_references :
  "resource.aws_vpc.main" ∈ _find_references "${aws_vpc.main.id}"
  /\ "data.aws_ami.ubuntu" ∈ _find_references "data.aws_ami.ubuntu.id"
  /\ "var.instance_type" ∈ _find_references "var.instance_type"
  /\ "module.security" ∈ _find_references "module.security.output_value".
Proof. repeat split; apply (bool_decide_unpack _); by vm_compute. Qed.

Example test_parse_directory :
  exists g st,
    parse_directory Sample.temp_tf_dir (__init__ "/tmp/tf" Sample.world) = (Return g, st)
    /\ total_files (metadata g) = 1
    /\ map id (result_entities g)
       = [ "resource.aws_vpc.main"; "resource.aws_subnet.public";
           "resource.aws_instance.web"; "data.aws_ami.ubuntu"; "module.security";
           "var.instance_type"; "output.instance_id"; "provider.aws" ].
Proof. eexists _, _. split; [vm_compute; reflexivity |]. by split. Qed.

Example test_extract_relationships :
  exists g st,
    parse_directory Sample.temp_tf_dir (__init__ "/tmp/tf" Sample.world) = (Return g, st)
    /\ {| source := "resource.aws_subnet.public"; target := "resource.aws_vpc.main";
          kind := "depends_on" |} ∈ result_relationships g
    /\ {| source := "resource.aws_instance.web"; target := "resource.aws_subnet.public";
          kind := "depends_on" |} ∈ result_relationships g
    /\ {| source := "output.instance_id"; target := "resource.aws_instance.web";
          kind := "references" |} ∈ result_relationships g.
Proof.
  eexists _, _. split; [vm_compute; reflexivity |].
  repeat split; repeat (first [apply list_elem_of_here | apply list_elem_of_further]).
Qed.

Example test_calculate_layout :
  Forall (fun kv => is_Some (position kv.2))
    (entities (calculate_layout
                 (parse_directory Sample.temp_tf_dir (__init__ "/tmp/tf" Sample.world)).2).2).
Proof. vm_compute. repeat constructor; by eexists. Qed.

Example test_empty_directory :
  (parse_directory Sample.empty_dir (__init__ "/tmp/tf" Sample.world)).1
  = Return {| result_entities := []; result_relationships := [];
              metadata := {| total_files := 0; total_entities := 0;
                             total_relationships := 0 |} |}.
Proof. reflexivity. Qed.

Example test_invalid_hcl :
  exists g st,
    parse_directory Sample.invalid_hcl (__init__ "/tmp/tf" Sample.world) = (Return g, st)
    /\ total_files (metadata g) = 1
    /\ total_entities (metadata g) = 0.
Proof. eexists _, _. split; [vm_compute; reflexivity |]. by split. Qed.

(** ** Strings *)


Lemma length_append (s t : string) :
  String.length (s +:+ t) = String.length s + String.length t.
Proof. induction s as [|c s IH]; simpl; [done | by rewrite IH]. Qed.



Lemma startswith_empty (text : string) : Str.startswith text "" = true.
Proof. by destruct text. Qed.

Lemma startswith_cons (c d : ascii) (text p : string) :
  Str.startswith (String d text) (String c p) = Ascii.eqb c d && Str.startswith text p.
Proof. unfold Str.startswith. simpl. by destruct (Ascii.eqb c d). Qed.

Lemma all_chars_append ok (s t : string) :
  all_chars ok (s +:+ t) = all_chars ok s && all_chars ok t.
Proof. induction s as [|c s IH]; simpl; [done | by rewrite IH, andb_assoc]. Qed.

Lemma all_chars_weaken (ok ok' : ascii -> bool) (s : string) :
  (forall c, ok c = true -> ok' c = true) ->
  all_chars ok s = true -> all_chars ok' s = true.
Proof.
  intros Hw. induction s as [|c s IH]; simpl; [done |].
  intros [Hc Hs]%andb_true_iff. rewrite (Hw c Hc). by apply IH.
Qed.


(** A text without the first character of [old] has nothing to replace. *)
Lemma replace_absent (a : ascii) (old new text : string) :
  all_chars (fun c => negb (Ascii.eqb a c)) text = true ->
  Str.replace text (String a old) new = text.
Proof.
  unfold Str.replace. induction text as [|c text IH]; simpl; [done |].
  intros [Hc Ht]%andb_true_iff. rewrite startswith_cons.
  apply negb_true_iff in Hc. rewrite Hc. simpl. by rewrite IH.
Qed.





(** ** The matcher on runs of word characters *)








(** ** Reference patterns *)
















Lemma py_list_set_elem (x : string) (xs : list string) : x ∈ py_list_set xs <-> x ∈ xs.
Proof. unfold py_list_set. by rewrite elem_of_elements, elem_of_list_to_set. Qed.







(** ** Dependencies of a block *)

(** Induction on values, with the hypothesis for every nested value. *)
Lemma Value_nested_ind (P : Value -> Prop) :
  (forall s, P (VStr s)) -> (forall n, P (VNum n)) -> (forall b, P (VBool b)) ->
  P VNone ->
  (forall items, Forall (fun kv => P kv.2) items -> P (VDict items)) ->
  (forall elems, Forall P elems -> P (VList elems)) ->
  forall v, P v.
Proof.
  intros Hs Hn Hb H0 Hd Hl. fix IH 1. intros [s|n|b| |items|elems].
  - apply Hs.
  - apply Hn.
  - apply Hb.
  - apply H0.
  - apply Hd. induction items as [|[k v] items IHitems]; constructor.
    + apply IH.
    + apply IHitems.
  - apply Hl. induction elems as [|v elems IHelems]; constructor.
    + apply IH.
    + apply IHelems.
Qed.

Lemma list_to_set_py_list_set (xs : list string) :
  list_to_set (py_list_set xs) =@{gset string} list_to_set xs.
Proof. unfold py_list_set. apply list_to_set_elements_L. Qed.

Lemma explicit_depends_on_regular (items : list (string * Value)) :
  match dict_get items "depends_on" with Some d => is_list d | None => true end = true ->
  explicit_depends_on items = Return (depends_on_strings items).
Proof.
  unfold explicit_depends_on, depends_on_strings.
  destruct (dict_get items "depends_on") as [[]|]; simpl; done.
Qed.

Lemma scan_list_finds (elems : list Value) :
  Forall scan_finds elems ->
  forallb (fun item => negb (is_list item) && regular item) elems = true ->
  exists found,
    scan_list _extract_dependencies elems = Return found
    /\ list_to_set found
       =@{gset string} ⋃ (map nested_depends_on elems) ∪ ⋃ (map resolve elems).
Proof.
  induction 1 as [|item elems Hitem _ IH]; simpl.
  - intros _. exists []. split; [done | set_solver].
  - intros [[Hnl Hreg]%andb_true_iff Hrest]%andb_true_iff.
    destruct (Hitem Hreg) as (refs & Hrefs & Hset).
    destruct (IH Hrest) as (more & Hmore & Hset').
    assert (scan_item _extract_dependencies item = Return refs) as ->
      by (by destruct item).
    rewrite Hmore. simpl. exists (refs ++ more). split; [done |].
    rewrite list_to_set_app_L, Hset, Hset'. set_solver.
Qed.

Lemma scan_items_finds (items : list (string * Value)) :
  Forall (fun kv => scan_finds kv.2) items ->
  forallb (fun kv => regular kv.2) items = true ->
  exists found,
    scan_items _extract_dependencies items = Return found
    /\ list_to_set found
       =@{gset string} ⋃ (map (fun kv => nested_depends_on kv.2) items)
                       ∪ ⋃ (map (fun kv => resolve kv.2) items).
Proof.
  induction 1 as [|[k v] items Hv _ IH]; simpl.
  - intros _. exists []. split; [done | set_solver].
  - intros [Hreg Hrest]%andb_true_iff.
    destruct (Hv Hreg) as (here & Hhere & Hset).
    destruct (IH Hrest) as (later & Hlater & Hset').
    cbn [snd] in Hhere, Hset.
    rewrite Hhere, Hlater. simpl. exists (here ++ later). split; [done |].
    rewrite list_to_set_app_L, Hset, Hset'. set_solver.
Qed.

Lemma scan_value_finds (v : Value) : scan_finds v.
Proof.
  induction v as [s|n|b| |items IH|elems IH] using Value_nested_ind;
    unfold scan_finds.
  - intros _. exists (_find_references s). split; [done |]. simpl. set_solver.
  - intros _. exists []. split; [done | set_solver].
  - intros _. exists []. split; [done | set_solver].
  - intros _. exists []. split; [done | set_solver].
  - intros [Hdep Hreg]%andb_true_iff.
    destruct (scan_items_finds items IH Hreg) as (found & Hfound & Hset).
    cbn [scan_value _extract_dependencies].
    rewrite explicit_depends_on_regular, Hfound by done. simpl obind.
    eexists. split; [done |].
    rewrite list_to_set_py_list_set, list_to_set_app_L, Hset.
    cbn [nested_depends_on resolve]. set_solver.
  - intros Hreg. cbn [scan_value nested_depends_on resolve].
    by apply scan_list_finds.
Qed.

(** C4 (amended): for a block in which every [depends_on] is a list and no
    sequence is an item of a sequence, the dependency set is the union of
    (a) the string entries of [depends_on], verbatim, of the block and of
    every mapping nested in it, and (b) the references resolved in every
    attribute value, the [depends_on] value included. *)
Theorem C4_dependencies_union (items : list (string * Value)) :
  regular (VDict items) = true ->
  exists deps,
    _extract_dependencies (VDict items) = Return deps
    /\ list_to_set deps
       =@{gset string} nested_depends_on (VDict items)
                       ∪ ⋃ (map (fun kv => resolve kv.2) items).
Proof. intros H. exact (scan_value_finds (VDict items) H). Qed.

Lemma C4_dependencies_union_witness :
  regular (VDict Sample.instance) = true
  /\ exists deps,
       _extract_dependencies (VDict Sample.instance) = Return deps
       /\ list_to_set deps
          =@{gset string} nested_depends_on (VDict Sample.instance)
                          ∪ ⋃ (map (fun kv => resolve kv.2) Sample.instance).
Proof.
  split; [reflexivity |].
  exact (C4_dependencies_union Sample.instance eq_refl).
Defined.

(** C4, as the design words it, fails: the entries of [depends_on] are
    scanned for references like every other attribute value. *)
Lemma C4_depends_on_scanned_counterexample :
  exists deps,
    _extract_dependencies (VDict Sample.explicit_only) = Return deps
    /\ list_to_set deps <> designed_dependencies Sample.explicit_only.
Proof.
  eexists. split; [by vm_compute |].
  intros Heq.
  assert ("resource.aws_vpc.main" ∈ designed_dependencies Sample.explicit_only) as Hin.
  { rewrite <- Heq. apply elem_of_list_to_set.
    apply list_elem_of_further, list_elem_of_here. }
  revert Hin. apply (bool_decide_unpack _). by vm_compute.
Qed.

(** ** Related runs of the parser *)

Section Related.

Context (R : State -> State -> Prop).

Lemma rel_ret {A} (a : A) : rel R (ret a).
Proof. intros st st' H. by split. Qed.

Lemma rel_lift {A} (o : Outcome A) : rel R (lift o).
Proof. intros st st' H. by split. Qed.

Lemma rel_bind {A B} (m : M A) (k : A -> M B) :
  rel R m -> (forall a, (exists st, (m st).1 = Return a) -> rel R (k a)) ->
  rel R (bind m k).
Proof.
  intros Hm Hk st st' H. unfold bind.
  destruct (Hm st st' H) as [Ho Hs].
  destruct (m st) as [[a|e] s1] eqn:E, (m st') as [[a'|e'] s1'] eqn:E';
    simpl in Ho, Hs; try discriminate Ho.
  - injection Ho as <-. apply Hk; [|done]. exists st. by rewrite E.
  - injection Ho as <-. simpl. by split.
Qed.

Lemma rel_bind_lift {A B} (o : Outcome A) (k : A -> M B) :
  (forall a, o = Return a -> rel R (k a)) -> rel R (bind (lift o) k).
Proof.
  intros Hk. apply rel_bind; [apply rel_lift |].
  intros a [st Hst]. by apply Hk.
Qed.

Lemma rel_for_each {X} (xs : list X) (body : X -> M unit) :
  (forall x, x ∈ xs -> rel R (body x)) -> rel R (for_each xs body).
Proof.
  induction xs as [|x xs IH]; intros Hbody; simpl.
  - apply rel_ret.
  - apply rel_bind; [apply Hbody; set_solver |].
    intros _ _. apply IH. intros y Hy. apply Hbody. set_solver.
Qed.

Lemma rel_try_except {A} (body : M A) (handler : Exn -> option (M A)) :
  rel R body -> (forall e h, handler e = Some h -> rel R h) ->
  rel R (try_except body handler).
Proof.
  intros Hbody Hh st st' H. unfold try_except.
  destruct (Hbody st st' H) as [Ho Hs].
  destruct (body st) as [[a|e] s1], (body st') as [[a'|e'] s1'];
    simpl in Ho, Hs; try discriminate Ho.
  - simpl. by split.
  - injection Ho as <-. destruct (handler e) as [h|] eqn:E; [|simpl; by split].
    by apply (Hh e h).
Qed.

Context (HR : respected R).

Lemma dict_get_set_same {V} (d : list (string * V)) (key : string) (v : V) :
  is_Some (dict_get (dict_set d key v) key).
Proof.
  induction d as [|[k w] d IH]; simpl.
  - by rewrite String.eqb_refl.
  - destruct (String.eqb k key) eqn:E; simpl; rewrite E; [done | apply IH].
Qed.

Lemma rel_create_relationships (entity_id : string) (deps : list string) (k : string) :
  (forall dep, emitted {| source := entity_id; target := dep; kind := k |}) ->
  forall st st',
    R st st' -> is_Some (dict_get (entities st) entity_id) ->
    (create_relationships entity_id deps k st).1
    = (create_relationships entity_id deps k st').1
    /\ R (create_relationships entity_id deps k st).2
         (create_relationships entity_id deps k st').2.
Proof.
  intros Hem. unfold create_relationships.
  induction deps as [|dep deps IH]; intros st st' H Hkey; simpl; [done |].
  unfold bind; simpl. apply IH; [|done].
  by apply (respected_append R HR {| source := entity_id; target := dep; kind := k |}).
Qed.

(** Storing an entity and appending its relationships. *)
Lemma rel_declare (e : TerraformEntity) (deps : list string) (k : string) :
  extracted e -> position e = None ->
  (forall dep, emitted {| source := id e; target := dep; kind := k |}) ->
  rel R (bind (set_entity (id e) e) (fun _ => create_relationships (id e) deps k)).
Proof.
  intros He Hp Hem st st' H. unfold bind. simpl.
  apply (rel_create_relationships (id e) deps k Hem).
  - apply (respected_set R HR e He Hp st st' H).
  - simpl. apply dict_get_set_same.
Qed.

Lemma rel_extract_resources (resources : Value) : rel R (_extract_resources resources).
Proof.
  unfold _extract_resources.
  apply rel_bind_lift; intros blocks _. apply rel_for_each; intros resource _.
  apply rel_bind_lift; intros by_type _. apply rel_for_each; intros [t instances] _.
  apply rel_bind_lift; intros by_name _. apply rel_for_each; intros [n config] _.
  apply rel_bind_lift; intros deps Hdeps.
  apply (rel_declare
           {| id := "resource." +:+ t +:+ "." +:+ n; type := t; category := "resource";
              name := n; provider := Some (Str.split_first "_" t);
              attributes := config; dependencies := deps; position := None |}).
  - by constructor.
  - done.
  - intros dep. constructor.
Qed.

Lemma rel_extract_data_sources (data_sources : Value) :
  rel R (_extract_data_sources data_sources).
Proof.
  unfold _extract_data_sources.
  apply rel_bind_lift; intros blocks _. apply rel_for_each; intros data _.
  apply rel_bind_lift; intros by_type _. apply rel_for_each; intros [t instances] _.
  apply rel_bind_lift; intros by_name _. apply rel_for_each; intros [n config] _.
  apply rel_bind_lift; intros deps Hdeps.
  apply (rel_declare
           {| id := "data." +:+ t +:+ "." +:+ n; type := t; category := "data";
              name := n; provider := Some (Str.split_first "_" t);
              attributes := config; dependencies := deps; position := None |}).
  - by constructor.
  - done.
  - intros dep. constructor.
Qed.

Lemma rel_extract_modules (modules : Value) : rel R (_extract_modules modules).
Proof.
  unfold _extract_modules.
  apply rel_bind_lift; intros blocks _. apply rel_for_each; intros module _.
  apply rel_bind_lift; intros by_name _. apply rel_for_each; intros [n config] _.
  apply rel_bind_lift; intros deps Hdeps.
  apply (rel_declare
           {| id := "module." +:+ n; type := "module"; category := "module";
              name := n; provider := None;
              attributes := config; dependencies := deps; position := None |}).
  - by constructor.
  - done.
  - intros dep. constructor.
Qed.

Lemma rel_extract_variables (variables : Value) : rel R (_extract_variables variables).
Proof.
  unfold _extract_variables.
  apply rel_bind_lift; intros blocks _. apply rel_for_each; intros var _.
  apply rel_bind_lift; intros by_name _. apply rel_for_each; intros [n config] _.
  apply (respected_set R HR
           {| id := "var." +:+ n; type := "variable"; category := "variable";
              name := n; provider := None;
              attributes := config; dependencies := []; position := None |}).
  - constructor.
  - done.
Qed.

Lemma rel_extract_outputs (outputs : Value) : rel R (_extract_outputs outputs).
Proof.
  unfold _extract_outputs.
  apply rel_bind_lift; intros blocks _. apply rel_for_each; intros output _.
  apply rel_bind_lift; intros by_name _. apply rel_for_each; intros [n config] _.
  apply rel_bind_lift; intros deps Hdeps.
  apply (rel_declare
           {| id := "output." +:+ n; type := "output"; category := "output";
              name := n; provider := None;
              attributes := config; dependencies := deps; position := None |}).
  - by constructor.
  - done.
  - intros dep. constructor.
Qed.

Lemma rel_extract_providers (providers : Value) : rel R (_extract_providers providers).
Proof.
  unfold _extract_providers.
  apply rel_bind_lift; intros blocks _. apply rel_for_each; intros block _.
  apply rel_bind_lift; intros by_name _. apply rel_for_each; intros [n config] _.
  apply (respected_set R HR
           {| id := "provider." +:+ n; type := "provider"; category := "provider";
              name := n; provider := Some n;
              attributes := config; dependencies := []; position := None |}).
  - constructor.
  - done.
Qed.

Lemma rel_when_present (parsed : list (string * Value)) (key : string)
    (extract : Value -> M unit) :
  (forall v, rel R (extract v)) -> rel R (when_present parsed key extract).
Proof.
  intros H. unfold when_present. destruct (dict_get parsed key); [apply H | apply rel_ret].
Qed.

Lemma rel_parse_file (file : string * LoadOutcome) : rel R (_parse_file file).
Proof.
  destruct file as [file_path load]. unfold _parse_file.
  apply rel_try_except.
  - apply rel_bind_lift; intros parsed _.
    apply rel_bind; [apply rel_when_present, rel_extract_resources | intros _ _].
    apply rel_bind; [apply rel_when_present, rel_extract_data_sources | intros _ _].
    apply rel_bind; [apply rel_when_present, rel_extract_modules | intros _ _].
    apply rel_bind; [apply rel_when_present, rel_extract_variables | intros _ _].
    apply rel_bind; [apply rel_when_present, rel_extract_outputs | intros _ _].
    apply rel_when_present, rel_extract_providers.
  - intros e h He. destruct e; simplify_eq; apply (respected_print R HR).
Qed.

Lemma rel_parse_files (files : list (string * LoadOutcome)) :
  rel R (for_each files _parse_file).
Proof. apply rel_for_each. intros f _. apply rel_parse_file. Qed.

End Related.

(** ** Invariants kept by the parser *)

Lemma rel_diagonal {A} (I : State -> Prop) (m : M A) :
  (forall st, I st -> I (m st).2) -> rel (diagonal I) m.
Proof. intros H st st' [HI <-]. split; [done |]. split; [by apply H | done]. Qed.

Lemma diagonal_preserves {A} (I : State -> Prop) (m : M A) :
  rel (diagonal I) m -> forall st, I st -> I (m st).2.
Proof. intros H st HI. by destruct (H st st (conj HI eq_refl)) as [_ [? _]]. Qed.

Lemma Forall_dict_set {V} (P : string * V -> Prop) (d : list (string * V)) key v :
  Forall P d -> P (key, v) -> Forall P (dict_set d key v).
Proof.
  intros Hd Hv. induction Hd as [|[k w] d Hkw Hd IH]; simpl.
  - by constructor.
  - destruct (String.eqb k key) eqn:E.
    + apply String.eqb_eq in E as ->. by constructor.
    + by constructor.
Qed.

Lemma dict_get_set_keeps {V} (d : list (string * V)) key v key' :
  is_Some (dict_get d key') -> is_Some (dict_get (dict_set d key v) key').
Proof.
  induction d as [|[k w] d IH]; simpl; [by intros [? ?] |].
  destruct (String.eqb k key) eqn:E; simpl; destruct (String.eqb k key'); auto.
Qed.

Lemma dict_get_elem {V} (d : list (string * V)) key v :
  dict_get d key = Some v -> (key, v) ∈ d.
Proof.
  induction d as [|[k w] d IH]; simpl; [done |].
  destruct (String.eqb k key) eqn:E.
  - apply String.eqb_eq in E as ->. intros [= ->]. apply list_elem_of_here.
  - intros H. apply list_elem_of_further. by apply IH.
Qed.

Lemma respected_consistent : respected (diagonal consistent).
Proof.
  split.
  - intros e He Hp. apply rel_diagonal. intros st [Hents Hrels]. split; simpl.
    + by apply Forall_dict_set.
    + eapply Forall_impl; [exact Hrels |]. intros r [Hr Hs]. split; [done |].
      by apply dict_get_set_keeps.
  - intros r st st' Hr Hs [[Hents Hrels] <-]. split; [|done]. split; simpl; [done |].
    apply Forall_app. split; [done |]. by repeat constructor.
  - intros line. apply rel_diagonal. by intros st [Hents Hrels].
Qed.

Lemma respected_unplaced : respected (diagonal unplaced).
Proof.
  split.
  - intros e He Hp. apply rel_diagonal. intros st Hst. unfold unplaced. simpl.
    by apply Forall_dict_set.
  - by intros r st st' Hr Hs [Hst <-].
  - intros line. by apply rel_diagonal.
Qed.

Lemma respected_same_parser : respected same_parser.
Proof.
  split.
  - intros e He Hp st st' (Hd & Hents & Hrels). split; [done |].
    split; [done |]. split; simpl; [by rewrite Hents | done].
  - intros r st st' Hr Hs (Hd & Hents & Hrels).
    split; [done |]. split; simpl; [done | by rewrite Hrels].
  - by intros line st st' (Hd & Hents & Hrels).
Qed.

(** What [parse_directory] returns is read off the state it leaves. *)
Lemma parse_directory_result (fs : FileSystem) (st : State) :
  let files := rglob_tf fs (terraform_dir st) in
  parse_directory fs st
  = match for_each files _parse_file st with
    | (Return _, st') => (Return (graph_result files st'), st')
    | (Raise e, st') => (Raise e, st')
    end.
Proof. unfold parse_directory, bind. by destruct (for_each _ _ st) as [[[]|e] st']. Qed.

Lemma parse_directory_state (fs : FileSystem) (st : State) :
  (parse_directory fs st).2
  = (for_each (rglob_tf fs (terraform_dir st)) _parse_file st).2.
Proof.
  rewrite parse_directory_result. simpl.
  by destruct (for_each _ _ st) as [[[]|e] st'].
Qed.

Lemma parse_directory_returned (fs : FileSystem) (st st' : State) (g : GraphResult) :
  parse_directory fs st = (Return g, st') ->
  g = graph_result (rglob_tf fs (terraform_dir st)) st'.
Proof.
  rewrite parse_directory_result. simpl.
  destruct (for_each _ _ st) as [[[]|e] st'']; by intros [= <- <-].
Qed.

Lemma parse_directory_keeps (I : State -> Prop) (fs : FileSystem) (st : State) :
  respected (diagonal I) -> I st -> I (parse_directory fs st).2.
Proof.
  intros HI Hst. rewrite parse_directory_state.
  by apply (diagonal_preserves I _ (rel_parse_files _ HI _)).
Qed.

Lemma extracted_with_position (pos : Position) (e : TerraformEntity) :
  extracted e -> extracted (with_position pos e).
Proof. destruct 1; by constructor. Qed.

Lemma set_position_keeps (key : string) (pos : Position)
    (ents : list (string * TerraformEntity)) :
  Forall (fun kv => id kv.2 = kv.1 /\ extracted kv.2) ents ->
  Forall (fun kv => id kv.2 = kv.1 /\ extracted kv.2) (set_position key pos ents).
Proof.
  induction 1 as [|[k e] ents [Hid He] Hents IH]; simpl; [done |].
  destruct (String.eqb k key); constructor; try done.
  split; [done | by apply extracted_with_position].
Qed.

Lemma set_position_get (key : string) (pos : Position)
    (ents : list (string * TerraformEntity)) (key' : string) :
  is_Some (dict_get ents key') -> is_Some (dict_get (set_position key pos ents) key').
Proof.
  induction ents as [|[k e] ents IH]; simpl; [done |].
  destruct (String.eqb k key); simpl; destruct (String.eqb k key'); auto.
Qed.

Lemma registry_ok_set_position key pos ents rels :
  registry_ok ents rels -> registry_ok (set_position key pos ents) rels.
Proof.
  intros [He Hr]. split; [by apply set_position_keeps |].
  eapply Forall_impl; [exact Hr |]. intros r [? ?]. split; [done |].
  by apply set_position_get.
Qed.

Lemma registry_ok_place_rows x_offset y_offset members ents rels :
  registry_ok ents rels -> registry_ok (place_rows x_offset y_offset members ents) rels.
Proof.
  revert y_offset ents. induction members as [|key members IH]; intros y_offset ents H;
    simpl; [done |].
  by apply IH, registry_ok_set_position.
Qed.

Lemma registry_ok_place_columns x_offset categories ents rels :
  registry_ok ents rels -> registry_ok (place_columns x_offset categories ents) rels.
Proof.
  revert x_offset ents.
  induction categories as [|[c members] categories IH]; intros x_offset ents H;
    simpl; [done |].
  by apply IH, registry_ok_place_rows.
Qed.

Lemma calculate_layout_consistent (st : State) :
  consistent st -> consistent (calculate_layout st).2.
Proof. intros H. by apply registry_ok_place_columns. Qed.

Lemma save_to_json_consistent (os : Writer) (fs : FileSystem) (output_path : string)
    (st : State) :
  consistent st -> consistent (save_to_json os fs output_path st).2.
Proof.
  apply diagonal_preserves. unfold save_to_json.
  apply rel_bind; [apply rel_diagonal, calculate_layout_consistent | intros _ _].
  apply rel_bind.
  { apply rel_diagonal. intros st0. apply parse_directory_keeps, respected_consistent. }
  intros result _.
  apply rel_bind; [| intros _ _; by apply rel_diagonal].
  apply rel_diagonal. intros st0 H. unfold write_json. by destruct (os output_path).
Qed.

Lemma reachable_consistent (st : State) : reachable st -> consistent st.
Proof.
  induction 1 as [dir w|fs st _ IH|st _ IH|os fs out st _ IH].
  - by split.
  - by apply parse_directory_keeps; [apply respected_consistent |].
  - by apply calculate_layout_consistent.
  - by apply save_to_json_consistent.
Qed.





(** C9: in every result of an extraction, whatever the parser went
    through before, a relationship has its source in the entities, its
    kind is [references] when the source is an output entity, and
    [depends_on] when the source is of any other category. *)
Theorem C9_edge_kind_by_category (fs : FileSystem) (st st' : State) (g : GraphResult) :
  reachable st ->
  parse_directory fs st = (Return g, st') ->
  forall r, r ∈ result_relationships g ->
    (exists e, e ∈ result_entities g /\ id e = source r)
    /\ (forall e, e ∈ result_entities g -> id e = source r ->
          (category e = "output" -> kind r = "references")
          /\ (category e <> "output" -> kind r = "depends_on")).
Proof.
  intros Hst Hg r Hr.
  assert (consistent st') as [Hents Hrels].
  { replace st' with (parse_directory fs st).2 by (by rewrite Hg).
    by apply reachable_consistent, reachable_parse. }
  rewrite (parse_directory_returned _ _ _ _ Hg) in Hr |- *. simpl in Hr |- *.
  rewrite Forall_forall in Hents. rewrite Forall_forall in Hrels.
  destruct (Hrels _ Hr) as [Hem [e Hget]]. split.
  - exists e. apply dict_get_elem in Hget. split.
    + apply list_elem_of_fmap. by exists (source r, e).
    + by destruct (Hents _ Hget).
  - intros e' He' Hid.
    apply list_elem_of_fmap in He' as ([k e''] & -> & Hin).
    destruct (Hents _ Hin) as [_ Hex]. simpl in *.
    destruct Hex, Hem; simpl in *; try discriminate Hid; by split.
Qed.



Lemma C9_edge_kind_by_category_witness :
  exists g st',
    parse_directory Sample.one_file
      (parse_directory Sample.one_file (__init__ "/tf" Sample.world)).2 = (Return g, st')
    /\ length (result_relationships g) = 4
    /\ forall r, r ∈ result_relationships g ->
         (exists e, e ∈ result_entities g /\ id e = source r)
         /\ (forall e, e ∈ result_entities g -> id e = source r ->
               (category e = "output" -> kind r = "references")
               /\ (category e <> "output" -> kind r = "depends_on")).
Proof.
  eexists _, _. split; [vm_compute; reflexivity |]. split; [reflexivity |].
  eapply (C9_edge_kind_by_category Sample.one_file
            (parse_directory Sample.one_file (__init__ "/tf" Sample.world)).2);
    [apply reachable_parse, reachable_init | vm_compute; reflexivity].
Defined.

(** ** Positions through [parse_terraform] *)

Lemma bind_returned {A B} (m : M A) (k : A -> M B) (st st' : State) (b : B) :
  bind m k st = (Return b, st') ->
  exists a st1, m st = (Return a, st1) /\ k a st1 = (Return b, st').
Proof.
  unfold bind. destruct (m st) as [[a|e] st1]; [|done]. intros H. by exists a, st1.
Qed.

Lemma dict_get_set_eq {V} (d : list (string * V)) (key : string) (v : V) :
  dict_get (dict_set d key v) key = Some v.
Proof.
  induction d as [|[k w] d IH]; simpl.
  - by rewrite String.eqb_refl.
  - destruct (String.eqb k key) eqn:E; simpl; by rewrite E.
Qed.

Lemma respected_disk_is (d : list (string * GraphResult)) : respected (diagonal (disk_is d)).
Proof.
  split.
  - intros e He Hp. by apply rel_diagonal.
  - by intros r st st' Hr Hs [Hst <-].
  - intros line. by apply rel_diagonal.
Qed.

Lemma graph_result_unplaced (files : list (string * LoadOutcome)) (st : State) :
  unplaced st -> Forall (fun e => position e = None) (result_entities (graph_result files st)).
Proof. intros H. simpl. by apply Forall_fmap. Qed.

Lemma parse_directory_keeps_eq (I : State -> Prop) (fs : FileSystem) (st st' : State) r :
  respected (diagonal I) -> I st -> parse_directory fs st = (r, st') -> I st'.
Proof.
  intros HI Hst Hrun. replace st' with (parse_directory fs st).2 by (by rewrite Hrun).
  by apply parse_directory_keeps.
Qed.

Lemma write_json_returned (os : Writer) (path : string) (g : GraphResult)
    (st st' : State) :
  write_json os path g st = (Return tt, st') ->
  (exists after, os path = Written after)
  /\ st' = {| terraform_dir := terraform_dir st; entities := entities st;
              relationships := relationships st; stdout := stdout st;
              disk := dict_set (disk st) path g |}.
Proof.
  unfold write_json. destruct (os path) as [msg|after]; [done |].
  intros [= <-]. split; [by exists after | done].
Qed.

(** C10: through [parse_terraform] the layout is computed on the empty
    registry, so no entity has a position, neither in the document written
    to [output_path] nor in the result returned. *)
Theorem C10_parse_terraform_positions_absent
    (os : Writer) (fs : FileSystem) (dir output_path : string) (w w' : World)
    (g : GraphResult) :
  parse_terraform os fs dir output_path w = (Return g, w') ->
  Forall (fun e => position e = None) (result_entities g)
  /\ exists written,
       dict_get (w_disk w') output_path = Some written
       /\ Forall (fun e => position e = None) (result_entities written).
Proof.
  unfold parse_terraform.
  destruct (bind _ _ (__init__ dir w)) as [r st] eqn:Hrun. intros [= -> <-].
  apply bind_returned in Hrun as ([] & st3 & Hsave & Hsecond).
  unfold save_to_json in Hsave.
  apply bind_returned in Hsave as ([] & st0 & Hlayout & Hsave).
  injection Hlayout as <-.
  apply bind_returned in Hsave as (written & st1 & Hfirst & Hsave).
  apply bind_returned in Hsave as ([] & st2 & Hwrite & Hprint).
  apply write_json_returned in Hwrite as [[after Hos] ->]. injection Hprint as <-.
  assert (unplaced st1) as Hst1.
  { eapply parse_directory_keeps_eq; [apply respected_unplaced | | exact Hfirst].
    constructor. }
  assert (unplaced st) as Hst.
  { eapply parse_directory_keeps_eq; [apply respected_unplaced | | exact Hsecond].
    exact Hst1. }
  assert (disk_is (dict_set (disk st1) output_path written) st) as Hdisk.
  { eapply parse_directory_keeps_eq; [apply respected_disk_is | | exact Hsecond].
    reflexivity. }
  rewrite (parse_directory_returned _ _ _ _ Hsecond).
  split; [by apply graph_result_unplaced |].
  exists written. split.
  - simpl. rewrite Hdisk. apply dict_get_set_eq.
  - rewrite (parse_directory_returned _ _ _ _ Hfirst).
    by apply graph_result_unplaced.
Qed.

Lemma C10_parse_terraform_positions_absent_witness :
  exists g w',
    parse_terraform (Sample.keeps Sample.one_file) Sample.one_file "/tf"
      "work/build/tf_entities.json" Sample.world
    = (Return g, w')
    /\ length (result_entities g) = 3
    /\ Forall (fun e => position e = None) (result_entities g)
    /\ exists written,
         dict_get (w_disk w') "work/build/tf_entities.json" = Some written
         /\ Forall (fun e => position e = None) (result_entities written).
Proof.
  eexists _, _. split; [vm_compute; reflexivity |]. split; [reflexivity |].
  eapply (C10_parse_terraform_positions_absent (Sample.keeps Sample.one_file)
            Sample.one_file "/tf" "work/build/tf_entities.json" Sample.world).
  vm_compute; reflexivity.
Defined.

(** ** Well-formed files are extracted without an exception *)

Lemma succeeds_ret : succeeds (ret tt).
Proof. done. Qed.

Lemma succeeds_bind (m : M unit) (k : unit -> M unit) :
  succeeds m -> succeeds (k tt) -> succeeds (bind m k).
Proof.
  intros Hm Hk st. unfold bind. specialize (Hm st).
  destruct (m st) as [[[]|e] st1]; [apply Hk | done].
Qed.

Lemma succeeds_bind_lift {A} (o : Outcome A) (k : A -> M unit) (a : A) :
  o = Return a -> succeeds (k a) -> succeeds (bind (lift o) k).
Proof. intros -> Hk st. apply Hk. Qed.

Lemma succeeds_for_each {X} (xs : list X) (body : X -> M unit) :
  (forall x, x ∈ xs -> succeeds (body x)) -> succeeds (for_each xs body).
Proof.
  induction xs as [|x xs IH]; intros Hbody; simpl; [apply succeeds_ret |].
  apply succeeds_bind; [apply Hbody; set_solver |].
  apply IH. intros y Hy. apply Hbody. set_solver.
Qed.

Lemma succeeds_create_relationships entity_id deps k :
  succeeds (create_relationships entity_id deps k).
Proof. apply succeeds_for_each. by intros dep _ st. Qed.

Lemma succeeds_declare entity_id entity deps k :
  succeeds (bind (set_entity entity_id entity)
                 (fun _ => create_relationships entity_id deps k)).
Proof. apply succeeds_bind; [done | apply succeeds_create_relationships]. Qed.

Lemma explicit_depends_on_sound (items : list (string * Value)) :
  match dict_get items "depends_on" with
  | Some (VNum _) | Some (VBool _) | Some VNone => false
  | _ => true
  end = true ->
  exists deps, explicit_depends_on items = Return deps.
Proof.
  unfold explicit_depends_on.
  destruct (dict_get items "depends_on") as [[]|]; simpl; try done; eauto.
Qed.

Lemma scan_list_returns (elems : list Value) :
  Forall scan_returns elems -> forallb sound elems = true ->
  exists found, scan_list _extract_dependencies elems = Return found.
Proof.
  induction 1 as [|item elems Hitem _ IH]; simpl; [eauto |].
  intros [Hs Hrest]%andb_true_iff.
  destruct (IH Hrest) as [more ->].
  assert (exists refs, scan_item _extract_dependencies item = Return refs) as [refs ->].
  { destruct item; simpl; eauto. }
  simpl. eauto.
Qed.

Lemma scan_items_returns (items : list (string * Value)) :
  Forall (fun kv => scan_returns kv.2) items ->
  forallb (fun kv => sound kv.2) items = true ->
  exists found, scan_items _extract_dependencies items = Return found.
Proof.
  induction 1 as [|[k v] items Hv _ IH]; simpl; [eauto |].
  intros [Hs Hrest]%andb_true_iff.
  destruct (IH Hrest) as [later ->]. destruct (Hv Hs) as [here Hhere].
  cbn [snd] in Hhere. rewrite Hhere. simpl. eauto.
Qed.

Lemma scan_value_returns (v : Value) : scan_returns v.
Proof.
  induction v as [s|n|b| |items IH|elems IH] using Value_nested_ind;
    unfold scan_returns; simpl; eauto.
  - intros [Hdep Hs]%andb_true_iff.
    destruct (explicit_depends_on_sound items Hdep) as [deps ->].
    destruct (scan_items_returns items IH Hs) as [found ->].
    simpl. eauto.
  - by apply scan_list_returns.
Qed.

Lemma sound_block_returns (config : Value) :
  sound_block config = true -> exists deps, _extract_dependencies config = Return deps.
Proof.
  destruct config; try done. intros H. exact (scan_value_returns (VDict items) H).
Qed.

Lemma py_iter_section (ok : Value -> bool) (v : Value) :
  section_of ok v = true ->
  exists blocks,
    py_iter v = Return blocks
    /\ forall b, b ∈ blocks ->
         exists items, b = VDict items /\ forallb (fun kv => ok kv.2) items = true.
Proof.
  destruct v as [| | | | |blocks]; try done. simpl. intros H.
  exists blocks. split; [done |]. intros b Hb.
  rewrite forallb_forall in H. specialize (H b). rewrite <- list_elem_of_In in H.
  specialize (H Hb). destruct b; try done. eauto.
Qed.

Lemma forallb_elem {X} (ok : X -> bool) (xs : list X) (x : X) :
  forallb ok xs = true -> x ∈ xs -> ok x = true.
Proof. rewrite forallb_forall. intros H Hx. apply H. by apply list_elem_of_In. Qed.

Lemma succeeds_extract_resources (resources : Value) :
  section_of two_level resources = true -> succeeds (_extract_resources resources).
Proof.
  intros (blocks & Hiter & Hblocks)%py_iter_section. unfold _extract_resources.
  eapply succeeds_bind_lift; [exact Hiter |].
  apply succeeds_for_each. intros b (by_type & -> & Hby_type)%Hblocks.
  eapply succeeds_bind_lift; [reflexivity |].
  apply succeeds_for_each. intros [t instances] Hin.
  pose proof (forallb_elem _ _ _ Hby_type Hin) as Hinst. simpl in Hinst.
  destruct instances as [| | | |by_name|]; try done.
  eapply succeeds_bind_lift; [reflexivity |].
  apply succeeds_for_each. intros [n config] Hin'.
  pose proof (forallb_elem _ _ _ Hinst Hin') as Hconfig. simpl in Hconfig.
  destruct (sound_block_returns config Hconfig) as [deps Hdeps].
  eapply succeeds_bind_lift; [exact Hdeps |]. apply succeeds_declare.
Qed.

Lemma succeeds_extract_data_sources (data_sources : Value) :
  section_of two_level data_sources = true -> succeeds (_extract_data_sources data_sources).
Proof.
  intros (blocks & Hiter & Hblocks)%py_iter_section. unfold _extract_data_sources.
  eapply succeeds_bind_lift; [exact Hiter |].
  apply succeeds_for_each. intros b (by_type & -> & Hby_type)%Hblocks.
  eapply succeeds_bind_lift; [reflexivity |].
  apply succeeds_for_each. intros [t instances] Hin.
  pose proof (forallb_elem _ _ _ Hby_type Hin) as Hinst. simpl in Hinst.
  destruct instances as [| | | |by_name|]; try done.
  eapply succeeds_bind_lift; [reflexivity |].
  apply succeeds_for_each. intros [n config] Hin'.
  pose proof (forallb_elem _ _ _ Hinst Hin') as Hconfig. simpl in Hconfig.
  destruct (sound_block_returns config Hconfig) as [deps Hdeps].
  eapply succeeds_bind_lift; [exact Hdeps |]. apply succeeds_declare.
Qed.

Lemma succeeds_extract_modules (modules : Value) :
  section_of sound_block modules = true -> succeeds (_extract_modules modules).
Proof.
  intros (blocks & Hiter & Hblocks)%py_iter_section. unfold _extract_modules.
  eapply succeeds_bind_lift; [exact Hiter |].
  apply succeeds_for_each. intros b (by_name & -> & Hby_name)%Hblocks.
  eapply succeeds_bind_lift; [reflexivity |].
  apply succeeds_for_each. intros [n config] Hin.
  pose proof (forallb_elem _ _ _ Hby_name Hin) as Hconfig. simpl in Hconfig.
  destruct (sound_block_returns config Hconfig) as [deps Hdeps].
  eapply succeeds_bind_lift; [exact Hdeps |]. apply succeeds_declare.
Qed.

Lemma succeeds_extract_outputs (outputs : Value) :
  section_of sound_block outputs = true -> succeeds (_extract_outputs outputs).
Proof.
  intros (blocks & Hiter & Hblocks)%py_iter_section. unfold _extract_outputs.
  eapply succeeds_bind_lift; [exact Hiter |].
  apply succeeds_for_each. intros b (by_name & -> & Hby_name)%Hblocks.
  eapply succeeds_bind_lift; [reflexivity |].
  apply succeeds_for_each. intros [n config] Hin.
  pose proof (forallb_elem _ _ _ Hby_name Hin) as Hconfig. simpl in Hconfig.
  destruct (sound_block_returns config Hconfig) as [deps Hdeps].
  eapply succeeds_bind_lift; [exact Hdeps |]. apply succeeds_declare.
Qed.

Lemma succeeds_extract_variables (variables : Value) :
  section_of (fun _ => true) variables = true -> succeeds (_extract_variables variables).
Proof.
  intros (blocks & Hiter & Hblocks)%py_iter_section. unfold _extract_variables.
  eapply succeeds_bind_lift; [exact Hiter |].
  apply succeeds_for_each. intros b (by_name & -> & Hby_name)%Hblocks.
  eapply succeeds_bind_lift; [reflexivity |].
  apply succeeds_for_each. by intros [n config] Hin st.
Qed.

Lemma succeeds_extract_providers (providers : Value) :
  section_of (fun _ => true) providers = true -> succeeds (_extract_providers providers).
Proof.
  intros (blocks & Hiter & Hblocks)%py_iter_section. unfold _extract_providers.
  eapply succeeds_bind_lift; [exact Hiter |].
  apply succeeds_for_each. intros b (by_name & -> & Hby_name)%Hblocks.
  eapply succeeds_bind_lift; [reflexivity |].
  apply succeeds_for_each. by intros [n config] Hin st.
Qed.

Lemma succeeds_when_present parsed key ok extract :
  section_ok parsed key ok = true ->
  (forall v, ok v = true -> succeeds (extract v)) ->
  succeeds (when_present parsed key extract).
Proof.
  unfold section_ok, when_present. destruct (dict_get parsed key); [|done].
  intros H Hext. by apply Hext.
Qed.

Lemma try_except_returned {A} (body : M A) handler (st : State) :
  (exists a, (body st).1 = Return a) -> try_except body handler st = body st.
Proof. intros [a H]. unfold try_except. by destruct (body st) as [[|] ?]. Qed.

(** A file that loads into a well-formed structure is extracted without
    an exception. *)
Lemma succeeds_parse_file (file_path : string) (parsed : list (string * Value)) :
  well_formed_file parsed = true -> succeeds (_parse_file (file_path, Loaded parsed)).
Proof.
  unfold well_formed_file. intros H. repeat (apply andb_true_iff in H as [H ?]).
  intros st. unfold _parse_file. rewrite try_except_returned.
  - revert st. eapply succeeds_bind_lift; [reflexivity |].
    repeat (apply succeeds_bind; [eapply succeeds_when_present; [eassumption |] |]);
      [.. | eapply succeeds_when_present; [eassumption |]];
      eauto using succeeds_extract_resources, succeeds_extract_data_sources,
        succeeds_extract_modules, succeeds_extract_variables,
        succeeds_extract_outputs, succeeds_extract_providers.
  - exists tt. revert st. eapply succeeds_bind_lift; [reflexivity |].
    repeat (apply succeeds_bind; [eapply succeeds_when_present; [eassumption |] |]);
      [.. | eapply succeeds_when_present; [eassumption |]];
      eauto using succeeds_extract_resources, succeeds_extract_data_sources,
        succeeds_extract_modules, succeeds_extract_variables,
        succeeds_extract_outputs, succeeds_extract_providers.
Qed.

(** ** One malformed file *)

Lemma parse_file_syntax_error (file_path msg : string) (st : State) :
  _parse_file (file_path, LoadFails (LarkError msg)) st
  = print ("Error parsing " +:+ file_path +:+ ": " +:+ msg) st.
Proof. done. Qed.

Lemma respected_printed (line : string) : respected (diagonal (printed line)).
Proof.
  split.
  - intros e _ _. by apply rel_diagonal.
  - by intros r st st' _ _ [? <-].
  - intros line'. apply rel_diagonal. intros st Hst. unfold printed. simpl.
    apply elem_of_app. by left.
Qed.

(** ** A second call on the same parser *)

Lemma respected_appended (before : list Relationship) : respected (appended before).
Proof.
  split.
  - by intros e He Hp st st' [Hd Hrels].
  - intros r st st' Hr Hs [Hd Hrels]. split; [done |]. simpl.
    by rewrite Hrels, app_assoc.
  - by intros line st st' [Hd Hrels].
Qed.

Lemma respected_in_dir (dir : string) : respected (diagonal (in_dir dir)).
Proof.
  split.
  - intros e _ _. by apply rel_diagonal.
  - by intros r st st' _ _ [? <-].
  - intros line. by apply rel_diagonal.
Qed.

(** A run from a parser without relationships, and the same run from a
    parser that already holds the relationships the first run leaves. *)
Lemma rerun_doubles_relationships (fs : FileSystem) (st0 st1 st1' : State)
    (g1 : GraphResult) :
  relationships st0 = [] ->
  parse_directory fs st0 = (Return g1, st1) ->
  terraform_dir st1' = terraform_dir st0 ->
  relationships st1' = relationships st1 ->
  exists g2 st2,
    parse_directory fs st1' = (Return g2, st2)
    /\ result_relationships g2 = result_relationships g1 ++ result_relationships g1.
Proof.
  intros Hnil H1 Hdir Hrels. revert H1. rewrite !parse_directory_result, Hdir.
  set (files := rglob_tf fs (terraform_dir st0)).
  destruct (rel_parse_files (appended (relationships st1)) (respected_appended _) files
              st0 st1') as [Hout [_ Happ]].
  { split; [done |]. by rewrite Hnil, app_nil_r. }
  destruct (for_each files _parse_file st0) as [[[]|e] s1]; [|done].
  intros [= <- <-]. simpl in Hout, Happ.
  destruct (for_each files _parse_file st1') as [[[]|e'] s2]; [|done].
  simpl in Happ. eexists _, _. split; [done |]. done.
Qed.

(** When the first call on a new parser returns, the second call returns
    too, and its relationships are those of the first call twice over. *)
Lemma second_call_doubles_relationships (fs : FileSystem) (dir : string) (w : World)
    (g1 : GraphResult) (st1 : State) :
  parse_directory fs (__init__ dir w) = (Return g1, st1) ->
  exists g2 st2,
    parse_directory fs st1 = (Return g2, st2)
    /\ result_relationships g2 = result_relationships g1 ++ result_relationships g1.
Proof.
  intros H1. eapply rerun_doubles_relationships; [| exact H1 | | done]; [done |].
  change (in_dir dir st1).
  eapply parse_directory_keeps_eq; [apply respected_in_dir | | exact H1]. reflexivity.
Qed.



(** C1: on the sample directory the second call on the same parser returns
    another result than the first: the same entities, and every
    relationship twice. The first result, read again after the second call,
    shares the longer list and still counts two relationships. *)
Theorem C1_second_call_accumulates :
  exists g1 st1 g2 st2,
    parse_directory Sample.one_file (__init__ "/tf" Sample.world) = (Return g1, st1)
    /\ parse_directory Sample.one_file st1 = (Return g2, st2)
    /\ result_entities g2 = result_entities g1
    /\ result_relationships g2 = result_relationships g1 ++ result_relationships g1
    /\ total_relationships (metadata g1) = 2
    /\ total_relationships (metadata g2) = 4
    /\ g1 <> g2
    /\ read_at st2 g1 <> g2.
Proof.
  eexists _, _, _, _. split; [vm_compute; reflexivity |].
  split; [vm_compute; reflexivity |].
  repeat split; discriminate.
Qed.

(** C2: on the sample directory [parse_terraform] writes one document and
    returns another: the document written holds each relationship once,
    the result returned holds each twice. *)
Theorem C2_returned_differs_from_written :
  exists g w' written,
    parse_terraform (Sample.keeps Sample.one_file) Sample.one_file "/tf"
      "work/build/tf_entities.json" Sample.world
    = (Return g, w')
    /\ dict_get (w_disk w') "work/build/tf_entities.json" = Some written
    /\ result_entities g = result_entities written
    /\ result_relationships g = result_relationships written ++ result_relationships written
    /\ total_relationships (metadata written) = 2
    /\ total_relationships (metadata g) = 4
    /\ g <> written.
Proof.
  eexists _, _, _. split; [vm_compute; reflexivity |].
  split; [vm_compute; reflexivity |].
  repeat split. discriminate.
Qed.

(** ** A path that is not a directory *)




(** ** Sequences inside sequences *)

(** C7: a reference in a sequence that is itself an item of a sequence is
    not found, although the resolver of the design finds it. *)
Theorem C7_nested_sequence_skipped :
  _extract_dependencies (VDict Sample.nested_lists) = Return []
  /\ "resource.aws_security_group.web" ∈ resolve (VDict Sample.nested_lists).
Proof.
  split; [by vm_compute |].
  apply (bool_decide_unpack _). by vm_compute.
Qed.

(** Where no sequence is an item of a sequence, every reference that the
    resolver of the design finds in a block is among its dependencies. *)
Lemma resolve_found_when_regular (items : list (string * Value)) (x : string) :
  regular (VDict items) = true ->
  x ∈ resolve (VDict items) ->
  exists deps, _extract_dependencies (VDict items) = Return deps /\ x ∈ deps.
Proof.
  intros Hreg Hx. destruct (scan_value_finds (VDict items) Hreg) as (deps & Hdeps & Hset).
  exists deps. split; [done |].
  apply (elem_of_list_to_set (C:=gset string)). rewrite Hset. set_solver.
Qed.

(** ** Directories whose files all load *)

Lemma succeeds_parse_file_loadable (file : string * LoadOutcome) :
  loadable file = true -> succeeds (_parse_file file).
Proof.
  destruct file as [file_path [parsed|e]]; unfold loadable; simpl.
  - apply succeeds_parse_file.
  - by destruct e.
Qed.




(** * Further properties *)

(** ** The registry *)

(** ** Identifiers, categories and providers *)

Lemma dict_set_keys {V} (d : list (string * V)) (key : string) (v : V) :
  map fst (dict_set d key v)
  = if decide (key ∈ map fst d) then map fst d else map fst d ++ [key].
Proof.
  induction d as [|[k w] d IH]; simpl; [done |].
  destruct (String.eqb k key) eqn:E; simpl.
  - apply String.eqb_eq in E as ->.
    destruct (decide (key ∈ key :: map fst d)) as [_|H]; [done |].
    destruct H. apply list_elem_of_here.
  - apply String.eqb_neq in E. rewrite IH.
    destruct (decide (key ∈ map fst d)) as [Hin|Hnin];
      destruct (decide (key ∈ k :: map fst d)) as [Hin'|Hnin']; try done.
    + destruct Hnin'. by apply list_elem_of_further.
    + apply elem_of_cons in Hin' as [?|?]; by simplify_eq.
Qed.

Lemma dict_get_set_ne {V} (d : list (string * V)) (key key' : string) (v : V) :
  key <> key' -> dict_get (dict_set d key v) key' = dict_get d key'.
Proof.
  intros Hne. induction d as [|[k w] d IH]; simpl.
  - by apply String.eqb_neq in Hne as ->.
  - destruct (String.eqb k key) eqn:E; simpl.
    + apply String.eqb_eq in E as ->. by apply String.eqb_neq in Hne as ->.
    + by rewrite IH.
Qed.

Lemma dict_get_None {V} (d : list (string * V)) (key : string) :
  dict_get d key = None <-> key ∉ map fst d.
Proof.
  induction d as [|[k w] d IH]; simpl.
  - split; [intros _; apply not_elem_of_nil | done].
  - destruct (String.eqb k key) eqn:E.
    + apply String.eqb_eq in E as ->. split; [done |].
      intros []. apply list_elem_of_here.
    + apply String.eqb_neq in E. rewrite IH, not_elem_of_cons. naive_solver.
Qed.

Lemma dict_set_NoDup {V} (d : list (string * V)) (key : string) (v : V) :
  NoDup (map fst d) -> NoDup (map fst (dict_set d key v)).
Proof.
  intros H. rewrite dict_set_keys. case_decide; [done |].
  apply NoDup_app. split_and!; [done | | apply NoDup_singleton].
  intros x Hx ->%list_elem_of_singleton. done.
Qed.

Lemma set_position_keys key pos (ents : list (string * TerraformEntity)) :
  map fst (set_position key pos ents) = map fst ents.
Proof.
  induction ents as [|[k e] ents IH]; simpl; [done |].
  destruct (String.eqb k key); simpl; by rewrite ?IH.
Qed.

Lemma place_rows_keys x_offset y_offset members ents :
  map fst (place_rows x_offset y_offset members ents) = map fst ents.
Proof.
  revert y_offset ents. induction members as [|key members IH]; intros y_offset ents;
    simpl; [done |].
  by rewrite IH, set_position_keys.
Qed.

Lemma place_columns_keys x_offset categories ents :
  map fst (place_columns x_offset categories ents) = map fst ents.
Proof.
  revert x_offset ents.
  induction categories as [|[c members] categories IH]; intros x_offset ents;
    simpl; [done |].
  by rewrite IH, place_rows_keys.
Qed.

(** An invariant of every state a parser object goes through. *)
Lemma reachable_invariant (I : State -> Prop) :
  (forall dir w, I (__init__ dir w)) ->
  respected (diagonal I) ->
  (forall st, I st -> I (calculate_layout st).2) ->
  (forall os path g st, I st -> I (write_json os path g st).2) ->
  forall st, reachable st -> I st.
Proof.
  intros Hinit HI Hlayout Hwrite st.
  induction 1 as [dir w|fs st _ IH|st _ IH|os fs out st _ IH].
  - apply Hinit.
  - by apply parse_directory_keeps.
  - by apply Hlayout.
  - revert IH. apply diagonal_preserves. unfold save_to_json.
    apply rel_bind; [apply rel_diagonal, Hlayout | intros _ _].
    apply rel_bind.
    { apply rel_diagonal. intros st0. by apply parse_directory_keeps. }
    intros result _.
    apply rel_bind; [apply rel_diagonal, Hwrite | intros _ _].
    apply (respected_print _ HI).
Qed.

Lemma respected_distinct_keys : respected (diagonal distinct_keys).
Proof.
  split.
  - intros e _ _. apply rel_diagonal. intros st Hst. by apply dict_set_NoDup.
  - by intros r st st' _ _ [? <-].
  - intros line. by apply rel_diagonal.
Qed.

Lemma reachable_distinct_keys (st : State) : reachable st -> distinct_keys st.
Proof.
  apply reachable_invariant.
  - intros dir w. apply NoDup_nil_2.
  - apply respected_distinct_keys.
  - intros st0 H. unfold distinct_keys. simpl. by rewrite place_columns_keys.
  - intros os path g st0 H. unfold write_json. by destruct (os path).
Qed.

(** What a returned result was read off. *)
Lemma returned_from_reachable (fs : FileSystem) (st st' : State) (g : GraphResult) :
  reachable st ->
  parse_directory fs st = (Return g, st') ->
  reachable st' /\ g = graph_result (rglob_tf fs (terraform_dir st)) st'.
Proof.
  intros Hst Hg. split; [|by apply parse_directory_returned].
  replace st' with (parse_directory fs st).2 by (by rewrite Hg). by constructor.
Qed.

Lemma registry_ids (ents : list (string * TerraformEntity)) rels :
  registry_ok ents rels -> map id (map snd ents) = map fst ents.
Proof.
  intros [Hents _]. induction Hents as [|[k e] ents [Hid _] _ IH]; simpl; [done |].
  simpl in Hid. by rewrite Hid, IH.
Qed.

(** X1. The identifiers of the entities of a result are pairwise distinct. *)
Theorem entity_identifiers_unique (fs : FileSystem) (st st' : State) (g : GraphResult) :
  reachable st ->
  parse_directory fs st = (Return g, st') ->
  NoDup (map id (result_entities g)).
Proof.
  intros Hst Hg. destruct (returned_from_reachable _ _ _ _ Hst Hg) as [Hst' ->].
  simpl. rewrite (registry_ids _ _ (reachable_consistent _ Hst')).
  by apply reachable_distinct_keys.
Qed.

Lemma extracted_identifier (e : TerraformEntity) :
  extracted e ->
  id e = identifier_of (category e) (type e) (name e) /\ category e ∈ categories.
Proof.
  destruct 1; (split; [reflexivity |]); unfold categories; simpl;
    repeat (first [apply list_elem_of_here | apply list_elem_of_further]).
Qed.

(** X2. The identifier of an entity is fixed by its category, type and
    name, and the category is one of the six. *)
Theorem entity_identifier_format (fs : FileSystem) (st st' : State) (g : GraphResult) :
  reachable st ->
  parse_directory fs st = (Return g, st') ->
  forall e, e ∈ result_entities g ->
    id e = identifier_of (category e) (type e) (name e) /\ category e ∈ categories.
Proof.
  intros Hst Hg e He. destruct (returned_from_reachable _ _ _ _ Hst Hg) as [Hst' ->].
  destruct (reachable_consistent _ Hst') as [Hents _].
  simpl in He. apply list_elem_of_fmap in He as ([k e'] & -> & Hin).
  rewrite Forall_forall in Hents. destruct (Hents _ Hin) as [_ Hex].
  by apply extracted_identifier.
Qed.

(** X3. Variables and providers are leaves: they have no dependencies and
    no relationship starts from them. *)
Theorem variables_and_providers_are_leaves
    (fs : FileSystem) (st st' : State) (g : GraphResult) :
  reachable st ->
  parse_directory fs st = (Return g, st') ->
  forall e, e ∈ result_entities g ->
    category e = "variable" \/ category e = "provider" ->
    dependencies e = []
    /\ forall r, r ∈ result_relationships g -> source r <> id e.
Proof.
  intros Hst Hg e He Hcat. destruct (returned_from_reachable _ _ _ _ Hst Hg) as [Hst' ->].
  destruct (reachable_consistent _ Hst') as [Hents Hrels].
  simpl in He |- *. apply list_elem_of_fmap in He as ([k e'] & -> & Hin).
  rewrite Forall_forall in Hents. destruct (Hents _ Hin) as [_ Hex]. simpl in *.
  split.
  - destruct Hex, Hcat; simpl in *; done.
  - intros r Hr Hsrc. rewrite Forall_forall in Hrels. destruct (Hrels _ Hr) as [Hem _].
    destruct Hex, Hcat, Hem; simpl in *; discriminate.
Qed.

Lemma split_first_prefix (sep : ascii) (text : string) :
  Str.startswith text (Str.split_first sep text) = true.
Proof.
  induction text as [|c text IH]; simpl; [done |].
  destruct (Ascii.eqb c sep); [done |].
  by rewrite startswith_cons, Ascii.eqb_refl, IH.
Qed.

Lemma split_first_no_sep (sep : ascii) (text : string) :
  all_chars (fun c => negb (Ascii.eqb c sep)) (Str.split_first sep text) = true.
Proof.
  induction text as [|c text IH]; simpl; [done |].
  destruct (Ascii.eqb c sep) eqn:E; [done |]. simpl. by rewrite E, IH.
Qed.

(** X4. The provider of a resource or data source is the part of its type
    before the first underscore; a provider entity is its own provider;
    modules, variables and outputs have none. *)
Theorem entity_provider_field (fs : FileSystem) (st st' : State) (g : GraphResult) :
  reachable st ->
  parse_directory fs st = (Return g, st') ->
  forall e, e ∈ result_entities g ->
    match provider e with
    | Some p =>
        (category e = "provider" /\ p = name e)
        \/ ((category e = "resource" \/ category e = "data")
            /\ Str.startswith (type e) p = true
            /\ all_chars (fun c => negb (Ascii.eqb c "_")) p = true
            /\ (p = type e \/ Str.startswith (type e) (p +:+ "_") = true))
    | None => category e = "module" \/ category e = "variable" \/ category e = "output"
    end.
Proof.
  intros Hst Hg e He. destruct (returned_from_reachable _ _ _ _ Hst Hg) as [Hst' ->].
  destruct (reachable_consistent _ Hst') as [Hents _].
  simpl in He. apply list_elem_of_fmap in He as ([k e'] & -> & Hin).
  rewrite Forall_forall in Hents. destruct (Hents _ Hin) as [_ Hex]. simpl.
  assert (forall t, Str.split_first "_" t = t
                    \/ Str.startswith t (Str.split_first "_" t +:+ "_") = true) as Hsplit.
  { induction t as [|c t IHt]; simpl; [by left |].
    destruct (Ascii.eqb c "_") eqn:E.
    - right. apply Ascii.eqb_eq in E as ->. done.
    - destruct IHt as [->| IHt]; [by left | right].
      simpl. by rewrite startswith_cons, Ascii.eqb_refl. }
  simpl in Hex. destruct Hex; simpl; auto.
  all: right; split_and!; auto using split_first_prefix, split_first_no_sep.
Qed.

Lemma respected_keeps_order (before : list string) : respected (diagonal (keeps_order before)).
Proof.
  split.
  - intros e _ _. apply rel_diagonal. intros st Hst. unfold keeps_order in *. simpl.
    rewrite dict_set_keys. case_decide; [done |]. by apply prefix_app_r.
  - by intros r st st' _ _ [? <-].
  - intros line. by apply rel_diagonal.
Qed.

(** X6. An extraction neither removes nor reorders what the registry
    holds: the identifiers present before are the first ones after. *)
Theorem parse_directory_keeps_order (fs : FileSystem) (st : State) :
  map fst (entities st) `prefix_of` map fst (entities (parse_directory fs st).2).
Proof.
  apply (parse_directory_keeps (keeps_order (map fst (entities st))));
    [apply respected_keeps_order | by unfold keeps_order].
Qed.

(** ** A second extraction on the same parser: the entities *)

Lemma store_all_app ops k e d :
  store_all (ops ++ [(k, e)]) d = dict_set (store_all ops d) k e.
Proof. revert d. induction ops as [|[k' e'] ops IH]; intros d; simpl; [done | apply IH]. Qed.

Lemma respected_same_assignments a b : respected (same_assignments a b).
Proof.
  split.
  - intros e _ _ st st' (Hd & ops & Ha & Hb). split; [done |]. split; [done |].
    exists (ops ++ [(id e, e)]). simpl. by rewrite !store_all_app, Ha, Hb.
  - intros r st st' _ _ (Hd & ops & Ha & Hb). split; [done |]. by exists ops.
  - intros line st st' (Hd & ops & Ha & Hb). split; [done |]. split; [done |]. by exists ops.
Qed.

Lemma store_all_NoDup ops d : NoDup (map fst d) -> NoDup (map fst (store_all ops d)).
Proof.
  revert d. induction ops as [|[k e] ops IH]; intros d H; simpl; [done |].
  by apply IH, dict_set_NoDup.
Qed.

Lemma store_all_keys_present ops d :
  (forall k, k ∈ map fst ops -> k ∈ map fst d) ->
  map fst (store_all ops d) = map fst d.
Proof.
  revert d. induction ops as [|[k e] ops IH]; intros d H; simpl; [done |].
  assert (k ∈ map fst d) as Hk by (apply H; simpl; apply list_elem_of_here).
  rewrite IH; rewrite dict_set_keys, decide_True by done; [done |].
  intros k' Hk'. apply H. simpl. by apply list_elem_of_further.
Qed.

Lemma store_all_keys_sub ops d k :
  k ∈ map fst (store_all ops d) -> k ∈ map fst d \/ k ∈ map fst ops.
Proof.
  revert d. induction ops as [|[k0 e0] ops IH]; intros d; simpl; [by left |].
  intros [Hk|Hk]%IH.
  - rewrite dict_set_keys in Hk. case_decide; [by left |].
    apply elem_of_app in Hk as [?|Hk]; [by left |].
    apply list_elem_of_singleton in Hk as ->. right. apply list_elem_of_here.
  - right. by apply list_elem_of_further.
Qed.

Lemma store_all_keys_keep ops d k :
  k ∈ map fst d -> k ∈ map fst (store_all ops d).
Proof.
  revert d. induction ops as [|[k0 e0] ops IH]; intros d H; simpl; [done |].
  apply IH. rewrite dict_set_keys. case_decide; [done |]. apply elem_of_app. by left.
Qed.

Lemma store_all_keys_cover ops d k :
  k ∈ map fst ops -> k ∈ map fst (store_all ops d).
Proof.
  revert d. induction ops as [|[k0 e0] ops IH]; intros d; simpl.
  - by intros ?%elem_of_nil.
  - intros [->|Hk]%elem_of_cons; [|by apply IH].
    apply store_all_keys_keep. rewrite dict_set_keys. case_decide; [done |].
    apply elem_of_app. right. apply list_elem_of_here.
Qed.

Lemma store_all_get ops d d' :
  (forall k, k ∉ map fst ops -> dict_get d k = dict_get d' k) ->
  forall k, dict_get (store_all ops d) k = dict_get (store_all ops d') k.
Proof.
  revert d d'. induction ops as [|[k0 e0] ops IH]; intros d d' H k; simpl.
  - apply H, not_elem_of_nil.
  - apply IH. intros k' Hk'. destruct (decide (k0 = k')) as [->|Hne].
    + by rewrite !dict_get_set_eq.
    + rewrite !dict_get_set_ne by done. apply H. simpl.
      by intros [?|?]%elem_of_cons.
Qed.

(** A dict is fixed by the order of its keys and by its lookups. *)
Lemma dict_ext {V} (d d' : list (string * V)) :
  NoDup (map fst d) -> map fst d = map fst d' ->
  (forall k, dict_get d k = dict_get d' k) -> d = d'.
Proof.
  revert d'. induction d as [|[k v] d IH]; intros [|[k' v'] d'] Hnd Hkeys Hget;
    simpl in *; try done.
  injection Hkeys as <- Hkeys. apply NoDup_cons in Hnd as [Hk Hnd].
  pose proof (Hget k) as Hk0. rewrite String.eqb_refl in Hk0. injection Hk0 as <-.
  f_equal. apply IH; [done | done |]. intros k0.
  destruct (decide (k = k0)) as [<-|Hne].
  - assert (dict_get d k = None) as -> by (by apply dict_get_None).
    symmetry. apply dict_get_None. by rewrite <- Hkeys.
  - apply String.eqb_neq in Hne. specialize (Hget k0). by rewrite Hne in Hget.
Qed.

(** Making the assignments of a run again, on a registry with the keys
    that run has left, gives the registry of that run. *)
Lemma store_all_again ops d :
  NoDup (map fst d) ->
  map fst d = map fst (store_all ops []) ->
  store_all ops d = store_all ops [].
Proof.
  intros Hnd Hkeys. apply dict_ext.
  - by apply store_all_NoDup.
  - rewrite store_all_keys_present; [done |].
    intros k Hk. rewrite Hkeys. by apply store_all_keys_cover.
  - apply store_all_get. intros k Hk. simpl. apply dict_get_None.
    rewrite Hkeys. intros [?%elem_of_nil|?]%store_all_keys_sub; done.
Qed.

(** A run on a new parser, and the same run on a parser whose registry has
    the identifiers the first run leaves. *)
Lemma rerun_same_entities (fs : FileSystem) (dir : string) (w : World)
    (st1 st1' : State) (g1 : GraphResult) :
  parse_directory fs (__init__ dir w) = (Return g1, st1) ->
  terraform_dir st1' = dir ->
  map fst (entities st1') = map fst (entities st1) ->
  exists g2 st2,
    parse_directory fs st1' = (Return g2, st2)
    /\ result_entities g2 = result_entities g1
    /\ total_entities (metadata g2) = total_entities (metadata g1)
    /\ total_files (metadata g2) = total_files (metadata g1).
Proof.
  intros H1 Hdir Hkeys.
  assert (distinct_keys st1) as Hnd.
  { apply reachable_distinct_keys.
    replace st1 with (parse_directory fs (__init__ dir w)).2 by (by rewrite H1).
    constructor. constructor. }
  revert H1. rewrite !parse_directory_result, Hdir. cbn [terraform_dir __init__].
  set (files := rglob_tf fs dir).
  destruct (rel_parse_files (same_assignments [] (entities st1'))
              (respected_same_assignments _ _) files (__init__ dir w) st1')
    as [Hout (_ & ops & Ha & Hb)].
  { split; [done |]. by exists []. }
  destruct (for_each files _parse_file (__init__ dir w)) as [[[]|e] s1]; [|done].
  intros [= <- <-]. simpl in Hout, Ha, Hb.
  destruct (for_each files _parse_file st1') as [[[]|e'] s2]; [|done].
  simpl in Hb. eexists _, _. split; [done |].
  assert (entities s2 = entities s1) as Heq.
  { rewrite Hb, Ha. apply store_all_again.
    - unfold distinct_keys in Hnd. by rewrite Hkeys.
    - by rewrite Hkeys, Ha. }
  unfold graph_result. simpl. by rewrite Heq.
Qed.

(** X8. An extraction that follows a layout discards the positions: it
    returns the entities of the first extraction, without positions. *)
Theorem parse_after_layout_discards_positions
    (fs : FileSystem) (dir : string) (w : World) (g1 : GraphResult) (st1 : State) :
  parse_directory fs (__init__ dir w) = (Return g1, st1) ->
  exists g2 st2,
    parse_directory fs (calculate_layout st1).2 = (Return g2, st2)
    /\ result_entities g2 = result_entities g1
    /\ Forall (fun e => position e = None) (result_entities g2).
Proof.
  intros H1.
  destruct (rerun_same_entities fs dir w st1 (calculate_layout st1).2 g1 H1)
    as (g2 & st2 & H2 & Hents & _).
  - simpl. change (in_dir dir st1).
    eapply parse_directory_keeps_eq; [apply respected_in_dir | | exact H1]. reflexivity.
  - simpl. apply place_columns_keys.
  - exists g2, st2. split; [done |]. split; [done |]. rewrite Hents.
    rewrite (parse_directory_returned _ _ _ _ H1). apply graph_result_unplaced.
    eapply parse_directory_keeps_eq; [apply respected_unplaced | | exact H1]. constructor.
Qed.

(** ** Relationships of the entities in the registry *)

Section Declarations.

Context (R : State -> State -> Prop) (HR : respected_declarations R).

Lemma declared_resources (resources : Value) : rel R (_extract_resources resources).
Proof.
  unfold _extract_resources.
  apply rel_bind_lift; intros blocks _. apply rel_for_each; intros resource _.
  apply rel_bind_lift; intros by_type _. apply rel_for_each; intros [t instances] _.
  apply rel_bind_lift; intros by_name _. apply rel_for_each; intros [n config] _.
  apply rel_bind_lift; intros deps Hdeps.
  apply (respected_declare R HR
           {| id := "resource." +:+ t +:+ "." +:+ n; type := t; category := "resource";
              name := n; provider := Some (Str.split_first "_" t);
              attributes := config; dependencies := deps; position := None |});
    [by constructor | done].
Qed.

Lemma declared_data_sources (data_sources : Value) :
  rel R (_extract_data_sources data_sources).
Proof.
  unfold _extract_data_sources.
  apply rel_bind_lift; intros blocks _. apply rel_for_each; intros data _.
  apply rel_bind_lift; intros by_type _. apply rel_for_each; intros [t instances] _.
  apply rel_bind_lift; intros by_name _. apply rel_for_each; intros [n config] _.
  apply rel_bind_lift; intros deps Hdeps.
  apply (respected_declare R HR
           {| id := "data." +:+ t +:+ "." +:+ n; type := t; category := "data";
              name := n; provider := Some (Str.split_first "_" t);
              attributes := config; dependencies := deps; position := None |});
    [by constructor | done].
Qed.

Lemma declared_modules (modules : Value) : rel R (_extract_modules modules).
Proof.
  unfold _extract_modules.
  apply rel_bind_lift; intros blocks _. apply rel_for_each; intros module _.
  apply rel_bind_lift; intros by_name _. apply rel_for_each; intros [n config] _.
  apply rel_bind_lift; intros deps Hdeps.
  apply (respected_declare R HR
           {| id := "module." +:+ n; type := "module"; category := "module";
              name := n; provider := None;
              attributes := config; dependencies := deps; position := None |});
    [by constructor | done].
Qed.

Lemma declared_variables (variables : Value) : rel R (_extract_variables variables).
Proof.
  unfold _extract_variables.
  apply rel_bind_lift; intros blocks _. apply rel_for_each; intros var _.
  apply rel_bind_lift; intros by_name _. apply rel_for_each; intros [n config] _.
  apply (respected_declare R HR
           {| id := "var." +:+ n; type := "variable"; category := "variable";
              name := n; provider := None;
              attributes := config; dependencies := []; position := None |});
    [constructor | done].
Qed.

Lemma declared_outputs (outputs : Value) : rel R (_extract_outputs outputs).
Proof.
  unfold _extract_outputs.
  apply rel_bind_lift; intros blocks _. apply rel_for_each; intros output _.
  apply rel_bind_lift; intros by_name _. apply rel_for_each; intros [n config] _.
  apply rel_bind_lift; intros deps Hdeps.
  apply (respected_declare R HR
           {| id := "output." +:+ n; type := "output"; category := "output";
              name := n; provider := None;
              attributes := config; dependencies := deps; position := None |});
    [by constructor | done].
Qed.

Lemma declared_providers (providers : Value) : rel R (_extract_providers providers).
Proof.
  unfold _extract_providers.
  apply rel_bind_lift; intros blocks _. apply rel_for_each; intros block _.
  apply rel_bind_lift; intros by_name _. apply rel_for_each; intros [n config] _.
  apply (respected_declare R HR
           {| id := "provider." +:+ n; type := "provider"; category := "provider";
              name := n; provider := Some n;
              attributes := config; dependencies := []; position := None |});
    [constructor | done].
Qed.

Lemma declared_parse_file (file : string * LoadOutcome) : rel R (_parse_file file).
Proof.
  destruct file as [file_path load]. unfold _parse_file.
  apply rel_try_except.
  - apply rel_bind_lift; intros parsed _.
    apply rel_bind; [apply rel_when_present, declared_resources | intros _ _].
    apply rel_bind; [apply rel_when_present, declared_data_sources | intros _ _].
    apply rel_bind; [apply rel_when_present, declared_modules | intros _ _].
    apply rel_bind; [apply rel_when_present, declared_variables | intros _ _].
    apply rel_bind; [apply rel_when_present, declared_outputs | intros _ _].
    apply rel_when_present, declared_providers.
  - intros e h He. destruct e; simplify_eq; apply (respected_diagnostic R HR).
Qed.

Lemma declared_parse_files (files : list (string * LoadOutcome)) :
  rel R (for_each files _parse_file).
Proof. apply rel_for_each. intros f _. apply declared_parse_file. Qed.

End Declarations.

Lemma create_relationships_state entity_id deps k (st : State) :
  create_relationships entity_id deps k st
  = (Return tt,
     {| terraform_dir := terraform_dir st; entities := entities st;
        relationships :=
          relationships st
          ++ map (fun dep => {| source := entity_id; target := dep; kind := k |}) deps;
        stdout := stdout st; disk := disk st |}).
Proof.
  unfold create_relationships. revert st.
  induction deps as [|dep deps IH]; intros st; simpl.
  - rewrite app_nil_r. by destruct st.
  - unfold bind. simpl. rewrite IH. simpl. by rewrite <- app_assoc.
Qed.

Lemma respected_edges_complete : respected_declarations (diagonal edges_complete).
Proof.
  split.
  - intros e He Hp. apply rel_diagonal. intros st Hst. unfold bind. simpl.
    rewrite create_relationships_state. unfold edges_complete. simpl.
    apply Forall_dict_set.
    + eapply Forall_impl; [exact Hst |]. intros kv H dep Hdep.
      apply elem_of_app. left. by apply H.
    + simpl. intros dep Hdep. apply elem_of_app. right.
      apply list_elem_of_fmap. by exists dep.
  - intros line. by apply rel_diagonal.
Qed.

Lemma set_position_edges key pos ents (rels : list Relationship) :
  Forall (fun kv => forall dep, dep ∈ dependencies kv.2 -> edge_of kv.2 dep ∈ rels) ents ->
  Forall (fun kv => forall dep, dep ∈ dependencies kv.2 -> edge_of kv.2 dep ∈ rels)
    (set_position key pos ents).
Proof.
  induction 1 as [|[k e] ents He Hents IH]; simpl; [done |].
  destruct (String.eqb k key); by constructor.
Qed.

Lemma place_rows_edges x_offset y_offset members ents (rels : list Relationship) :
  Forall (fun kv => forall dep, dep ∈ dependencies kv.2 -> edge_of kv.2 dep ∈ rels) ents ->
  Forall (fun kv => forall dep, dep ∈ dependencies kv.2 -> edge_of kv.2 dep ∈ rels)
    (place_rows x_offset y_offset members ents).
Proof.
  revert y_offset ents. induction members as [|key members IH]; intros y_offset ents H;
    simpl; [done |].
  by apply IH, set_position_edges.
Qed.

Lemma place_columns_edges x_offset cats ents (rels : list Relationship) :
  Forall (fun kv => forall dep, dep ∈ dependencies kv.2 -> edge_of kv.2 dep ∈ rels) ents ->
  Forall (fun kv => forall dep, dep ∈ dependencies kv.2 -> edge_of kv.2 dep ∈ rels)
    (place_columns x_offset cats ents).
Proof.
  revert x_offset ents. induction cats as [|[c members] cats IH]; intros x_offset ents H;
    simpl; [done |].
  by apply IH, place_rows_edges.
Qed.

Lemma parse_directory_edges_complete (fs : FileSystem) (st : State) :
  edges_complete st -> edges_complete (parse_directory fs st).2.
Proof.
  intros H. rewrite parse_directory_state.
  by apply (diagonal_preserves _ _ (declared_parse_files _ respected_edges_complete _)).
Qed.

Lemma reachable_edges_complete (st : State) : reachable st -> edges_complete st.
Proof.
  induction 1 as [dir w|fs st _ IH|st _ IH|os fs out st _ IH].
  - constructor.
  - by apply parse_directory_edges_complete.
  - by apply place_columns_edges.
  - revert IH. apply diagonal_preserves. unfold save_to_json.
    apply rel_bind.
    { apply rel_diagonal. intros st0 H0. by apply place_columns_edges. }
    intros _ _. apply rel_bind.
    { apply rel_diagonal. intros st0. apply parse_directory_edges_complete. }
    intros result _.
    apply rel_bind; [| intros _ _; by apply rel_diagonal].
    apply rel_diagonal. intros st0 H0. unfold write_json. by destruct (os out).
Qed.

(** X5. Every dependency of every entity of a result has its relationship
    in the result: from the entity to the dependency, of kind [references]
    for an output and [depends_on] otherwise. *)
Theorem every_dependency_has_its_edge
    (fs : FileSystem) (st st' : State) (g : GraphResult) :
  reachable st ->
  parse_directory fs st = (Return g, st') ->
  forall e dep, e ∈ result_entities g -> dep ∈ dependencies e ->
    {| source := id e; target := dep;
       kind := if String.eqb (category e) "output" then "references" else "depends_on" |}
    ∈ result_relationships g.
Proof.
  intros Hst Hg e dep He Hdep.
  destruct (returned_from_reachable _ _ _ _ Hst Hg) as [Hst' ->].
  pose proof (reachable_edges_complete _ Hst') as Hedges.
  simpl in He |- *. apply list_elem_of_fmap in He as ([k e'] & -> & Hin).
  unfold edges_complete in Hedges. rewrite Forall_forall in Hedges.
  by apply (Hedges _ Hin).
Qed.

(** ** Errors and empty files *)

Lemma for_each_app {X} (xs ys : list X) (body : X -> M unit) (st : State) :
  for_each (xs ++ ys) body st
  = bind (for_each xs body) (fun _ => for_each ys body) st.
Proof.
  revert st. induction xs as [|x xs IH]; intros st; simpl; [done |].
  unfold bind in *. destruct (body x st) as [[[]|e] st1]; [|done].
  by rewrite IH.
Qed.

(** X9. An exception of the loader other than the two that [_parse_file]
    catches ends the extraction: it is raised to the caller, the files
    after it are not read, and the parser keeps what the files before it
    have put in. *)
Theorem uncaught_load_error_aborts (fs : FileSystem) (st : State)
    (before after : list (string * LoadOutcome)) (path : string) (e : Exn) :
  fs (terraform_dir st) = Directory (before ++ (path, LoadFails e) :: after) ->
  forallb loadable before = true ->
  loadable (path, LoadFails e) = false ->
  parse_directory fs st = (Raise e, (for_each before _parse_file st).2).
Proof.
  intros Hfs Hbefore He. rewrite parse_directory_result. unfold rglob_tf. rewrite Hfs.
  rewrite for_each_app. unfold bind at 1.
  assert (succeeds (for_each before _parse_file)) as Hs.
  { apply succeeds_for_each. intros f Hf.
    apply succeeds_parse_file_loadable. by apply (forallb_elem _ _ _ Hbefore). }
  specialize (Hs st). destruct (for_each before _parse_file st) as [[[]|e'] s1]; [|done].
  simpl. unfold bind. by destruct e.
Qed.

Lemma uncaught_load_error_aborts_witness :
  parse_directory
    (fun _ => Directory [ ("/tf/main.tf", Loaded Sample.main_tf);
                          ("/tf/locked.tf", LoadFails (OSError "Permission denied"));
                          ("/tf/other.tf", Loaded Sample.fixture) ])
    (__init__ "/tf" Sample.world)
  = (Raise (OSError "Permission denied"),
     (for_each [("/tf/main.tf", Loaded Sample.main_tf)] _parse_file
        (__init__ "/tf" Sample.world)).2).
Proof.
  apply (uncaught_load_error_aborts _ _ [("/tf/main.tf", Loaded Sample.main_tf)]
           [("/tf/other.tf", Loaded Sample.fixture)] "/tf/locked.tf"
           (OSError "Permission denied")); reflexivity.
Defined.

Lemma parse_file_without_sections (file_path : string) (parsed : list (string * Value))
    (st : State) :
  Forall (fun key => dict_get parsed key = None) sections ->
  _parse_file (file_path, Loaded parsed) st = (Return tt, st).
Proof.
  unfold sections. intros H. repeat (apply Forall_cons in H as [? H]).
  unfold _parse_file, try_except, bind, when_present, lift, ret.
  by repeat match goal with H : dict_get parsed _ = None |- _ => rewrite H; clear H end.
Qed.

(** X10. Files that load but declare none of the six kinds of block (only
    locals or settings, or nothing at all) are counted and otherwise
    ignored: the parser is unchanged. *)
Theorem files_without_sections_are_ignored (fs : FileSystem) (st : State)
    (files : list (string * LoadOutcome)) :
  fs (terraform_dir st) = Directory files ->
  Forall (fun f => exists parsed,
            f.2 = Loaded parsed
            /\ Forall (fun key => dict_get parsed key = None) sections) files ->
  parse_directory fs st = (Return (graph_result files st), st).
Proof.
  intros Hfs Hfiles. rewrite parse_directory_result. unfold rglob_tf. rewrite Hfs.
  assert (for_each files _parse_file st = (Return tt, st)) as ->; [|done].
  clear Hfs. induction Hfiles as [|[p l] files (parsed & Hl & Hnone) _ IH]; [done |].
  simpl in Hl. subst l. cbn [for_each]. unfold bind.
  by rewrite parse_file_without_sections.
Qed.

Lemma files_without_sections_are_ignored_witness :
  parse_directory
    (fun _ => Directory [ ("/tf/locals.tf", Loaded [("locals", VList [VDict [("env", VStr "${var.env}")]])]);
                          ("/tf/empty.tf", Loaded []) ])
    (__init__ "/tf" Sample.world)
  = (Return {| result_entities := []; result_relationships := [];
               metadata := {| total_files := 2; total_entities := 0;
                              total_relationships := 0 |} |},
     __init__ "/tf" Sample.world).
Proof.
  apply (files_without_sections_are_ignored _ (__init__ "/tf" Sample.world)
           [ ("/tf/locals.tf", Loaded [("locals", VList [VDict [("env", VStr "${var.env}")]])]);
             ("/tf/empty.tf", Loaded []) ]).
  - reflexivity.
  - repeat constructor; eexists; (split; [reflexivity | repeat constructor]).
Defined.




(** ** Dependencies come from the block *)

Lemma depends_on_strings_nested (items : list (string * Value)) (x : string) :
  x ∈ depends_on_strings items -> x ∈ nested_depends_on (VDict items).
Proof. intros H. simpl. apply elem_of_union. left. by apply elem_of_list_to_set. Qed.

Lemma scan_list_sound (elems : list Value) :
  Forall scan_sound elems ->
  forallb depends_on_lists elems = true ->
  exists found,
    scan_list _extract_dependencies elems = Return found
    /\ forall x, x ∈ found ->
         x ∈ ⋃ (map nested_depends_on elems) ∪ ⋃ (map resolve elems).
Proof.
  induction 1 as [|item elems Hitem _ IH]; simpl.
  - intros _. exists []. split; [done |]. by intros x ?%elem_of_nil.
  - intros [Hd Hrest]%andb_true_iff.
    destruct (IH Hrest) as (more & Hmore & Hsub). rewrite Hmore.
    assert (exists refs, scan_item _extract_dependencies item = Return refs
                         /\ forall x, x ∈ refs -> x ∈ nested_depends_on item ∪ resolve item)
      as (refs & -> & Hrefs).
    { destruct item; try (exists []; split; [done |]; by intros x ?%elem_of_nil).
      - exact (Hitem Hd).
      - exact (Hitem Hd). }
    simpl. exists (refs ++ more). split; [done |].
    intros x [Hx|Hx]%elem_of_app; [apply Hrefs in Hx | apply Hsub in Hx]; set_solver.
Qed.

Lemma scan_items_sound (items : list (string * Value)) :
  Forall (fun kv => scan_sound kv.2) items ->
  forallb (fun kv => depends_on_lists kv.2) items = true ->
  exists found,
    scan_items _extract_dependencies items = Return found
    /\ forall x, x ∈ found ->
         x ∈ ⋃ (map (fun kv => nested_depends_on kv.2) items)
             ∪ ⋃ (map (fun kv => resolve kv.2) items).
Proof.
  induction 1 as [|[k v] items Hv _ IH]; simpl.
  - intros _. exists []. split; [done |]. by intros x ?%elem_of_nil.
  - intros [Hd Hrest]%andb_true_iff.
    destruct (Hv Hd) as (here & Hhere & Hsub).
    destruct (IH Hrest) as (later & Hlater & Hsub').
    cbn [snd] in Hhere, Hsub. rewrite Hhere, Hlater. simpl.
    exists (here ++ later). split; [done |].
    intros x [Hx|Hx]%elem_of_app; [apply Hsub in Hx | apply Hsub' in Hx]; set_solver.
Qed.

Lemma scan_value_sound (v : Value) : scan_sound v.
Proof.
  induction v as [s|n|b| |items IH|elems IH] using Value_nested_ind;
    unfold scan_sound.
  - intros _. exists (_find_references s). split; [done |]. simpl. set_solver.
  - intros _. exists []. split; [done |]. by intros x ?%elem_of_nil.
  - intros _. exists []. split; [done |]. by intros x ?%elem_of_nil.
  - intros _. exists []. split; [done |]. by intros x ?%elem_of_nil.
  - intros [Hdep Hd]%andb_true_iff.
    destruct (scan_items_sound items IH Hd) as (found & Hfound & Hsub).
    cbn [scan_value _extract_dependencies].
    rewrite explicit_depends_on_regular, Hfound by done. simpl obind.
    eexists. split; [done |]. intros x [Hx|Hx]%py_list_set_elem%elem_of_app.
    + apply elem_of_union. left. by apply depends_on_strings_nested.
    + apply Hsub in Hx. cbn [nested_depends_on resolve]. set_solver.
  - intros Hd. cbn [scan_value nested_depends_on resolve]. by apply scan_list_sound.
Qed.

(** X13. Nothing is made up: for a block in which every [depends_on] is a
    list, the dependencies are computed, and each of them is a string of
    a [depends_on] list of the block or of a mapping nested in it, or a
    reference found in a string somewhere in the block. *)
Theorem dependencies_come_from_the_block (items : list (string * Value)) :
  depends_on_lists (VDict items) = true ->
  exists deps,
    _extract_dependencies (VDict items) = Return deps
    /\ forall x, x ∈ deps ->
         x ∈ nested_depends_on (VDict items) \/ x ∈ resolve (VDict items).
Proof.
  intros H. destruct (scan_value_sound (VDict items) H) as (deps & Hdeps & Hsub).
  exists deps. split; [done |]. intros x Hx. apply elem_of_union. by apply Hsub.
Qed.

Lemma dependencies_come_from_the_block_witness :
  exists deps,
    _extract_dependencies (VDict Sample.instance) = Return deps
    /\ forall x, x ∈ deps ->
         x ∈ nested_depends_on (VDict Sample.instance)
         \/ x ∈ resolve (VDict Sample.instance).
Proof. apply (dependencies_come_from_the_block Sample.instance). reflexivity. Defined.

(** ** What the resolver returns *)

Lemma string_append_assoc (a b c : string) : (a +:+ b) +:+ c = a +:+ b +:+ c.
Proof. induction a as [|x a IH]; simpl; [done | by rewrite IH]. Qed.

Lemma strip_prefix_append (s rest : string) : Str.strip_prefix s (s +:+ rest) = Some rest.
Proof. induction s as [|c s IH]; simpl; [done | by rewrite Ascii.eqb_refl]. Qed.

Lemma contains_append (pre s rest : string) :
  Str.contains (pre +:+ s +:+ rest) s = true.
Proof.
  induction pre as [|c pre IH].
  - assert (Str.startswith (s +:+ rest) s = true) as H.
    { unfold Str.startswith. by rewrite strip_prefix_append. }
    simpl. destruct (s +:+ rest); simpl; by rewrite H.
  - cbn [String.append Str.contains]. rewrite IH. apply orb_true_r.
Qed.











Lemma replace_closing_brace (s : string) :
  all_chars (fun c => negb (Ascii.eqb "}" c)) s = true ->
  Str.replace (s +:+ "}") "}" "" = s.
Proof.
  unfold Str.replace. induction s as [|c s IH]; [done |].
  cbn [all_chars]. intros [Hc Hs]%andb_true_iff. apply negb_true_iff in Hc.
  cbn [String.append Str.replace_from]. rewrite startswith_cons, Hc. cbn [andb].
  by rewrite IH.
Qed.

(** X15. Writing a text as an interpolation changes nothing: [${s}] gives
    the references of [s], for every [s] that holds neither [$] nor [}]. *)
Theorem interpolation_is_transparent (s : string) :
  all_chars (fun c => negb (Ascii.eqb "$" c) && negb (Ascii.eqb "}" c)) s = true ->
  _find_references ("${" +:+ s +:+ "}") = _find_references s.
Proof.
  intros H.
  assert (all_chars (fun c => negb (Ascii.eqb "$" c)) s = true) as Hdollar.
  { revert H. apply all_chars_weaken. by intros c [? ?]%andb_true_iff. }
  assert (all_chars (fun c => negb (Ascii.eqb "}" c)) s = true) as Hbrace.
  { revert H. apply all_chars_weaken. by intros c [? ?]%andb_true_iff. }
  unfold _find_references, raw_references. do 3 f_equal.
  unfold strip_interpolation.
  rewrite (replace_absent "$" "{" "" s) by done.
  rewrite (replace_absent "}" "" "" s) by done.
  assert (Str.replace ("${" +:+ s +:+ "}") "${" "" = s +:+ "}") as ->.
  { unfold Str.replace. cbn -[Str.replace_from]. cbn [Str.replace_from].
    change (Str.startswith (String "$" (String "{" (s +:+ "}"))) "${") with true.
    cbn [String.length Nat.sub String.append].
    apply (replace_absent "$" "{" "" (s +:+ "}")).
    rewrite all_chars_append, Hdollar. done. }
  by rewrite replace_closing_brace.
Qed.

Lemma interpolation_is_transparent_witness :
  _find_references ("${" +:+ "aws_vpc.main.id" +:+ "}") = _find_references "aws_vpc.main.id".
Proof. apply (interpolation_is_transparent "aws_vpc.main.id"). reflexivity. Defined.

(** ** The grid of [calculate_layout] *)

Lemma group_by_category_fold (ents : list (string * TerraformEntity)) :
  group_by_category ents = fold_left add_to_category ents [].
Proof. done. Qed.

Lemma add_to_category_get acc (k : string) (e : TerraformEntity) (c : string) :
  dict_get (add_to_category acc (k, e)) c
  = if String.eqb (category e) c
    then Some (default [] (dict_get acc (category e)) ++ [k])
    else dict_get acc c.
Proof.
  unfold add_to_category. destruct (dict_get acc (category e)) as [ms|] eqn:E.
  - rewrite E. destruct (String.eqb (category e) c) eqn:Ec.
    + apply String.eqb_eq in Ec as <-. apply dict_get_set_eq.
    + apply String.eqb_neq in Ec. by apply dict_get_set_ne.
  - rewrite dict_get_set_eq. destruct (String.eqb (category e) c) eqn:Ec.
    + apply String.eqb_eq in Ec as <-. apply dict_get_set_eq.
    + apply String.eqb_neq in Ec. by rewrite !dict_get_set_ne.
Qed.

Lemma add_to_category_keys acc (k : string) (e : TerraformEntity) :
  map fst (add_to_category acc (k, e))
  = if decide (category e ∈ map fst acc) then map fst acc else map fst acc ++ [category e].
Proof.
  unfold add_to_category. destruct (dict_get acc (category e)) as [ms|] eqn:E.
  - rewrite E. apply dict_set_keys.
  - rewrite dict_get_set_eq. apply dict_get_None in E.
    rewrite !dict_set_keys. rewrite (decide_False (P := category e ∈ map fst acc)) by done.
    rewrite decide_True; [done |]. apply elem_of_app. right. apply list_elem_of_here.
Qed.

Lemma first_seen_NoDup (seen cats : list string) :
  NoDup seen -> NoDup (first_seen seen cats).
Proof.
  revert seen. induction cats as [|c cats IH]; intros seen Hnd; simpl; [done |].
  apply IH. destruct (decide (c ∈ seen)); [done |].
  apply NoDup_app. split_and!; [done | | apply NoDup_singleton].
  intros x Hx ->%list_elem_of_singleton. done.
Qed.

Lemma first_seen_incl (seen cats : list string) (c : string) :
  c ∈ seen -> c ∈ first_seen seen cats.
Proof.
  revert seen. induction cats as [|c' cats IH]; intros seen Hc; simpl; [done |].
  apply IH. destruct (decide (c' ∈ seen)); [done |]. apply elem_of_app. by left.
Qed.

Lemma first_seen_complete (seen cats : list string) (c : string) :
  c ∈ cats -> c ∈ first_seen seen cats.
Proof.
  revert seen. induction cats as [|c' cats IH]; intros seen Hc; simpl.
  - by apply elem_of_nil in Hc.
  - apply elem_of_cons in Hc as [->|Hc]; [|by apply IH].
    apply first_seen_incl. destruct (decide (c' ∈ seen)); [done |].
    apply elem_of_app. right. apply list_elem_of_here.
Qed.

Lemma group_keys (ents : list (string * TerraformEntity)) acc :
  map fst (fold_left add_to_category ents acc)
  = first_seen (map fst acc) (map category_of ents).
Proof.
  revert acc. induction ents as [|[k e] ents IH]; intros acc; [done |].
  cbn [fold_left map first_seen]. by rewrite IH, add_to_category_keys.
Qed.

Lemma group_get (ents : list (string * TerraformEntity)) acc (c : string) ms :
  dict_get (fold_left add_to_category ents acc) c = Some ms ->
  ms = default [] (dict_get acc c) ++ members_of c ents.
Proof.
  revert acc. induction ents as [|[k e] ents IH]; intros acc; cbn [fold_left].
  - intros ->. unfold members_of. simpl. by rewrite app_nil_r.
  - intros H%IH. rewrite add_to_category_get in H. subst ms. unfold members_of.
    destruct (String.eqb (category e) c) eqn:Ec.
    + apply String.eqb_eq in Ec as <-.
      rewrite filter_cons_True by done. simpl. by rewrite <- app_assoc.
    + apply String.eqb_neq in Ec. by rewrite filter_cons_False.
Qed.

Lemma elem_dict_get {V} (d : list (string * V)) (k : string) (v : V) :
  NoDup (map fst d) -> (k, v) ∈ d -> dict_get d k = Some v.
Proof.
  induction d as [|[k' v'] d IH]; simpl; intros Hnd Hin.
  - by apply elem_of_nil in Hin.
  - apply NoDup_cons in Hnd as [Hk' Hnd]. apply elem_of_cons in Hin as [[= -> ->]|Hin].
    + by rewrite String.eqb_refl.
    + destruct (String.eqb k' k) eqn:E; [|by apply IH].
      apply String.eqb_eq in E as ->. destruct Hk'.
      apply list_elem_of_fmap. by exists (k, v).
Qed.

Lemma lookup_dict_get {V} (d : list (string * V)) (i : nat) (k : string) (v : V) :
  NoDup (map fst d) -> d !! i = Some (k, v) -> dict_get d k = Some v.
Proof. intros Hnd Hi. apply elem_dict_get; [done |]. by eapply list_elem_of_lookup_2. Qed.

Lemma members_of_elem (c : string) (ents : list (string * TerraformEntity)) (k : string) :
  k ∈ members_of c ents -> exists e, (k, e) ∈ ents /\ category e = c.
Proof.
  unfold members_of. intros ([k' e] & -> & [Hc Hin]%list_elem_of_filter)%list_elem_of_fmap.
  by exists e.
Qed.

Lemma members_of_app (c : string) (pre post : list (string * TerraformEntity)) k e :
  category e = c ->
  members_of c (pre ++ (k, e) :: post) = members_of c pre ++ k :: members_of c post.
Proof.
  intros Hc. unfold members_of. rewrite filter_app, filter_cons_True by done.
  by rewrite map_app.
Qed.

Lemma members_of_occurrences (c : string) (ents : list (string * TerraformEntity)) :
  length (members_of c ents) = occurrences c (map category_of ents).
Proof.
  unfold members_of, occurrences. rewrite length_map.
  induction ents as [|[k e] ents IH]; [done |]. cbn [map].
  destruct (decide (category_of (k, e) = c)) as [Hc|Hc].
  - rewrite !filter_cons_True by done. simpl. by rewrite IH.
  - by rewrite !filter_cons_False.
Qed.

Lemma set_position_get_eq (key : string) (pos : Position)
    (ents : list (string * TerraformEntity)) (k : string) :
  dict_get (set_position key pos ents) k
  = if String.eqb key k then with_position pos <$> dict_get ents k else dict_get ents k.
Proof.
  induction ents as [|[k0 e] ents IH]; simpl; [by destruct (String.eqb key k) |].
  destruct (String.eqb k0 key) eqn:E1; simpl; destruct (String.eqb k0 k) eqn:E2;
    rewrite ?IH; destruct (String.eqb key k) eqn:E3; try done.
  all: repeat match goal with
       | H : String.eqb _ _ = true |- _ => apply String.eqb_eq in H; subst
       end;
       rewrite ?String.eqb_refl in *; congruence.
Qed.

Lemma place_rows_get_other x y (ms : list string) ents (k : string) :
  k ∉ ms -> dict_get (place_rows x y ms ents) k = dict_get ents k.
Proof.
  revert y ents. induction ms as [|m ms IH]; intros y ents Hk; simpl; [done |].
  apply not_elem_of_cons in Hk as [Hm Hk]. rewrite IH by done.
  rewrite set_position_get_eq. apply not_eq_sym in Hm.
  by apply String.eqb_neq in Hm as ->.
Qed.

Lemma place_rows_get x y (ms1 ms2 : list string) ents (k : string) :
  k ∉ ms1 -> k ∉ ms2 ->
  dict_get (place_rows x y (ms1 ++ k :: ms2) ents) k
  = with_position {| pos_x := x * 250; pos_y := (y + Z.of_nat (length ms1)) * 150 |}
      <$> dict_get ents k.
Proof.
  revert y ents. induction ms1 as [|m ms1 IH]; intros y ents H1 H2; simpl.
  - rewrite place_rows_get_other by done.
    by rewrite set_position_get_eq, String.eqb_refl, Z.add_0_r.
  - apply not_elem_of_cons in H1 as [Hm H1]. rewrite IH by done.
    rewrite set_position_get_eq. apply not_eq_sym in Hm.
    apply String.eqb_neq in Hm as ->.
    by replace (y + 1 + Z.of_nat (length ms1))%Z
      with (y + Z.pos (Pos.of_succ_nat (length ms1)))%Z by lia.
Qed.

Lemma place_columns_get_other x (cats : list (string * list string)) ents (k : string) :
  Forall (fun entry => k ∉ entry.2) cats ->
  dict_get (place_columns x cats ents) k = dict_get ents k.
Proof.
  revert x ents. induction cats as [|[c ms] cats IH]; intros x ents Hk; simpl; [done |].
  apply Forall_cons in Hk as [Hms Hk]. rewrite IH by done.
  by apply place_rows_get_other.
Qed.

Lemma place_columns_get x (c1 c2 : list (string * list string)) (c : string)
    (ms1 ms2 : list string) ents (k : string) :
  Forall (fun entry => k ∉ entry.2) c1 -> Forall (fun entry => k ∉ entry.2) c2 ->
  k ∉ ms1 -> k ∉ ms2 ->
  dict_get (place_columns x (c1 ++ (c, ms1 ++ k :: ms2) :: c2) ents) k
  = with_position {| pos_x := (x + Z.of_nat (length c1)) * 250;
                     pos_y := Z.of_nat (length ms1) * 150 |}
      <$> dict_get ents k.
Proof.
  revert x ents. induction c1 as [|[c' ms'] c1 IH]; intros x ents H1 H2 Hm1 Hm2; simpl.
  - rewrite place_columns_get_other by done. rewrite place_rows_get by done.
    by rewrite Z.add_0_r.
  - apply Forall_cons in H1 as [Hms' H1]. rewrite IH by done.
    rewrite place_rows_get_other by done.
    by replace (x + 1 + Z.of_nat (length c1))%Z
      with (x + Z.pos (Pos.of_succ_nat (length c1)))%Z by lia.
Qed.

Lemma index_of_app (c : string) (l1 l2 : list string) :
  c ∉ l1 -> index_of c (l1 ++ c :: l2) = length l1.
Proof.
  induction l1 as [|c' l1 IH]; simpl; intros Hc.
  - by rewrite String.eqb_refl.
  - apply not_elem_of_cons in Hc as [Hne Hc]. apply not_eq_sym in Hne.
    apply String.eqb_neq in Hne as ->. by rewrite IH.
Qed.

Lemma index_of_inj (c c' : string) (l : list string) :
  c ∈ l -> c' ∈ l -> index_of c l = index_of c' l -> c = c'.
Proof.
  induction l as [|x l IH]; simpl; intros Hc Hc'.
  - by apply elem_of_nil in Hc.
  - destruct (String.eqb x c) eqn:E; destruct (String.eqb x c') eqn:E'; try done.
    + apply String.eqb_eq in E, E'. congruence.
    + intros [= H]. apply String.eqb_neq in E, E'.
      apply elem_of_cons in Hc as [->|Hc]; [done |].
      apply elem_of_cons in Hc' as [->|Hc']; [done |]. by apply IH.
Qed.

(** Where the layout puts the entity stored under a key. *)
Lemma layout_lookup (pre post : list (string * TerraformEntity)) (k : string)
    (e : TerraformEntity) :
  let ents := pre ++ (k, e) :: post in
  NoDup (map fst ents) ->
  dict_get (place_columns 0 (group_by_category ents) ents) k
  = Some (with_position (cell (map category_of ents) (length pre) (category e)) e).
Proof.
  intros ents Hnd.
  assert ((k, e) ∈ ents) as Hin by (apply elem_of_app; right; apply list_elem_of_here).
  assert (forall e', (k, e') ∈ ents -> e' = e) as Honly.
  { intros e' He'. apply (elem_dict_get _ _ _ Hnd) in He', Hin. congruence. }
  pose proof Hnd as Hsplit. unfold ents in Hsplit. rewrite map_app in Hsplit.
  apply NoDup_app in Hsplit as (_ & Hpre & Hpost). cbn [map fst] in Hpre, Hpost.
  apply NoDup_cons in Hpost as [Hpost _].
  assert (k ∉ map fst pre) as Hpre'.
  { intros H. apply (Hpre _ H). apply list_elem_of_here. }
  set (G := group_by_category ents).
  assert (map fst G = first_seen [] (map category_of ents)) as Hkeys.
  { unfold G. rewrite group_by_category_fold. apply group_keys. }
  assert (NoDup (map fst G)) as HGnd.
  { rewrite Hkeys. apply first_seen_NoDup, NoDup_nil_2. }
  assert (forall c ms, (c, ms) ∈ G -> ms = members_of c ents) as Hmembers.
  { intros c ms H%(elem_dict_get _ _ _ HGnd). unfold G in H.
    rewrite group_by_category_fold in H. by apply group_get in H. }
  assert (category e ∈ map fst G) as Hc.
  { rewrite Hkeys. apply first_seen_complete.
    apply list_elem_of_fmap. by exists (k, e). }
  apply list_elem_of_fmap in Hc as ([c ms] & Hce & HcG). simpl in Hce. subst c.
  pose proof (Hmembers _ _ HcG) as Hms.
  apply list_elem_of_split in HcG as (c1 & c2 & HG).
  assert (forall entry, entry ∈ c1 ++ c2 -> k ∉ entry.2) as Hothers.
  { intros [c' ms'] Hentry Hk. simpl in Hk.
    assert ((c', ms') ∈ G) as HinG.
    { rewrite HG. apply elem_of_app in Hentry as [?|?]; apply elem_of_app; [by left |].
      right. by apply list_elem_of_further. }
    rewrite (Hmembers _ _ HinG) in Hk.
    apply members_of_elem in Hk as (e' & He' & Hcat). apply Honly in He'. subst e'.
    subst c'. rewrite HG, map_app in HGnd. cbn [map fst] in HGnd.
    apply NoDup_app in HGnd as (_ & Hdisj & [Hc2 _]%NoDup_cons).
    apply elem_of_app in Hentry as [H1|H2].
    - apply (Hdisj (category e)); [|apply list_elem_of_here].
      apply list_elem_of_fmap. by exists (category e, ms').
    - apply Hc2. apply list_elem_of_fmap. by exists (category e, ms'). }
  unfold ents in Hms. rewrite members_of_app in Hms by done.
  fold G. rewrite HG, Hms. rewrite place_columns_get.
  - rewrite (elem_dict_get _ _ _ Hnd Hin). simpl. do 2 f_equal. unfold cell.
    f_equal.
    + rewrite <- Hkeys, HG, map_app. cbn [map fst].
      rewrite index_of_app, length_map; [done |].
      rewrite HG, map_app in HGnd. cbn [map fst] in HGnd.
      apply NoDup_app in HGnd as (_ & Hdisj & _).
      intros H. apply (Hdisj _ H). apply list_elem_of_here.
    + rewrite members_of_occurrences. unfold ents. rewrite map_app.
      rewrite take_app_length'; [done | by rewrite length_map].
  - apply Forall_forall. intros entry H. apply Hothers, elem_of_app. by left.
  - apply Forall_forall. intros entry H. apply Hothers, elem_of_app. by right.
  - intros (e' & He' & _)%members_of_elem. apply Hpre'.
    apply list_elem_of_fmap. by exists (k, e').
  - intros (e' & He' & _)%members_of_elem. apply Hpost.
    apply list_elem_of_fmap. by exists (k, e').
Qed.

Lemma layout_at (ents : list (string * TerraformEntity)) (i : nat) (k : string)
    (e : TerraformEntity) :
  NoDup (map fst ents) ->
  ents !! i = Some (k, e) ->
  place_columns 0 (group_by_category ents) ents !! i
  = Some (k, with_position (cell (map category_of ents) i (category e)) e).
Proof.
  intros Hnd Hi.
  pose proof (place_columns_keys 0 (group_by_category ents) ents) as Hkeys.
  set (L := place_columns 0 (group_by_category ents) ents) in *.
  assert (is_Some (L !! i)) as [[k' e'] Hi'].
  { apply lookup_lt_is_Some. rewrite <- (length_map fst L), Hkeys, length_map.
    by eapply lookup_lt_Some. }
  assert (k' = k) as ->.
  { assert (map fst L !! i = Some k') as H by (by rewrite list_lookup_fmap, Hi').
    rewrite Hkeys, list_lookup_fmap, Hi in H. by injection H. }
  rewrite Hi'. f_equal. f_equal.
  assert (dict_get L k = Some e') as Hget.
  { apply (lookup_dict_get L i); [by rewrite Hkeys | done]. }
  apply list_elem_of_split_length in Hi as (pre & post & Hents & ->).
  unfold L in Hget. rewrite Hents in Hget, Hnd.
  rewrite (layout_lookup pre post k e Hnd) in Hget. rewrite Hents. congruence.
Qed.

Lemma layout_length (ents : list (string * TerraformEntity)) x cats :
  length (place_columns x cats ents) = length ents.
Proof. rewrite <- (length_map fst), place_columns_keys. apply length_map. Qed.

(** X16. [calculate_layout] puts the registry on a grid and changes nothing
    else: the entities keep their order and all their other fields; the
    [i]-th entity gets the column of its category, the categories being
    numbered in the order in which they first occur, 250 apart, and the
    row given by the number of entities of its category before it, 150
    apart. *)
Theorem layout_is_a_grid (st : State) :
  distinct_keys st ->
  length (entities (calculate_layout st).2) = length (entities st)
  /\ relationships (calculate_layout st).2 = relationships st
  /\ forall i key e,
       entities st !! i = Some (key, e) ->
       entities (calculate_layout st).2 !! i
       = Some (key, with_position
                      (cell (map category_of (entities st)) i (category e)) e).
Proof.
  intros Hnd. split_and!.
  - apply layout_length.
  - done.
  - intros i key e Hi. simpl. by apply layout_at.
Qed.

Lemma occurrences_lt (cats : list string) (c : string) (i j : nat) :
  cats !! i = Some c -> i < j ->
  occurrences c (take i cats) < occurrences c (take j cats).
Proof.
  intros Hi Hij. apply list_elem_of_split_length in Hi as (l1 & l2 & -> & ->).
  rewrite take_app_length.
  replace j with (length l1 + S (j - length l1 - 1)) by lia.
  rewrite take_app_add. cbn [take]. unfold occurrences.
  rewrite filter_app, filter_cons_True by done. rewrite length_app. simpl. lia.
Qed.

Lemma set_position_categories key pos (ents : list (string * TerraformEntity)) :
  map category_of (set_position key pos ents) = map category_of ents.
Proof.
  induction ents as [|[k e] ents IH]; simpl; [done |].
  destruct (String.eqb k key); simpl; by rewrite ?IH.
Qed.

Lemma place_rows_categories x y (ms : list string) ents :
  map category_of (place_rows x y ms ents) = map category_of ents.
Proof.
  revert y ents. induction ms as [|m ms IH]; intros y ents; simpl; [done |].
  by rewrite IH, set_position_categories.
Qed.

Lemma place_columns_categories x (cats : list (string * list string)) ents :
  map category_of (place_columns x cats ents) = map category_of ents.
Proof.
  revert x ents. induction cats as [|[c ms] cats IH]; intros x ents; simpl; [done |].
  by rewrite IH, place_rows_categories.
Qed.

(** X17. No two entities are put on the same cell. *)
Theorem layout_cells_are_distinct (st : State) (i j : nat)
    (item1 item2 : string * TerraformEntity) :
  distinct_keys st ->
  entities (calculate_layout st).2 !! i = Some item1 ->
  entities (calculate_layout st).2 !! j = Some item2 ->
  i <> j ->
  position item1.2 <> position item2.2.
Proof.
  intros Hnd H1 H2 Hij. simpl in H1, H2.
  set (ents := entities st) in *. set (cats := map category_of ents).
  assert (forall n item, place_columns 0 (group_by_category ents) ents !! n = Some item ->
            exists c, cats !! n = Some c /\ position item.2 = Some (cell cats n c)) as Hcell.
  { intros n item Hn.
    assert (is_Some (ents !! n)) as [[k o] Ho].
    { apply lookup_lt_is_Some. rewrite <- (layout_length ents 0 (group_by_category ents)).
      by eapply lookup_lt_Some. }
    rewrite (layout_at ents n k o Hnd Ho) in Hn. injection Hn as <-.
    exists (category o). split; [|done]. unfold cats. by rewrite list_lookup_fmap, Ho. }
  destruct (Hcell _ _ H1) as (c1 & Hc1 & ->). destruct (Hcell _ _ H2) as (c2 & Hc2 & ->).
  unfold cell. intros [= Hx Hy].
  assert (c1 = c2) as <-.
  { apply (index_of_inj c1 c2 (first_seen [] cats)); [| | lia];
      apply first_seen_complete; by eapply list_elem_of_lookup_2. }
  destruct (decide (i < j)).
  - pose proof (occurrences_lt cats c1 i j Hc1). lia.
  - pose proof (occurrences_lt cats c1 j i Hc2). lia.
Qed.

(** X18. Laying out again changes nothing. *)
Theorem layout_is_idempotent (st : State) :
  distinct_keys st ->
  calculate_layout (calculate_layout st).2 = calculate_layout st.
Proof.
  intros Hnd. unfold calculate_layout at 1 3. cbn [snd]. f_equal.
  cbn [calculate_layout snd terraform_dir relationships stdout disk entities]. f_equal.
  set (ents := entities st) in *. set (L := place_columns 0 (group_by_category ents) ents).
  assert (NoDup (map fst L)) as HndL by (unfold L; by rewrite place_columns_keys).
  assert (map category_of L = map category_of ents) as Hcats
    by apply place_columns_categories.
  apply list_eq. intros i. destruct (ents !! i) as [[k o]|] eqn:Ho.
  - pose proof (layout_at ents i k o Hnd Ho) as Hi. fold L in Hi.
    rewrite (layout_at L i _ _ HndL Hi), Hi, Hcats. done.
  - apply lookup_ge_None in Ho.
    rewrite !(proj2 (lookup_ge_None _ _)); [done | |]; unfold L; by rewrite ?layout_length.
Qed.

(** ** Both calls, in general *)

(** X7. When the first call on a new parser returns, the second call
    returns too: the same entities in the same order, and every
    relationship of the first call twice. *)
Theorem second_call_repeats_relationships (fs : FileSystem) (dir : string) (w : World)
    (g1 : GraphResult) (st1 : State) :
  parse_directory fs (__init__ dir w) = (Return g1, st1) ->
  exists g2 st2,
    parse_directory fs st1 = (Return g2, st2)
    /\ result_entities g2 = result_entities g1
    /\ result_relationships g2 = result_relationships g1 ++ result_relationships g1
    /\ total_files (metadata g2) = total_files (metadata g1)
    /\ total_entities (metadata g2) = total_entities (metadata g1)
    /\ total_relationships (metadata g2) = 2 * total_relationships (metadata g1).
Proof.
  intros H1.
  assert (in_dir dir st1) as Hdir.
  { eapply parse_directory_keeps_eq; [apply respected_in_dir | | exact H1]. reflexivity. }
  destruct (rerun_same_entities fs dir w st1 st1 g1 H1 Hdir eq_refl)
    as (g2 & st2 & H2 & Hents & Hcount & Hfiles).
  destruct (second_call_doubles_relationships fs dir w g1 st1 H1)
    as (g2' & st2' & H2' & Hrels).
  rewrite H2 in H2'. injection H2' as <- <-.
  exists g2, st2. split_and!; try done.
  rewrite (parse_directory_returned _ _ _ _ H2) in Hrels |- *.
  rewrite (parse_directory_returned _ _ _ _ H1) in Hrels |- *.
  simpl in *. rewrite Hrels, length_app. lia.
Qed.

Lemma second_call_repeats_relationships_witness :
  exists g2 st2,
    parse_directory Sample.one_file
      (parse_directory Sample.one_file (__init__ "/tf" Sample.world)).2
    = (Return g2, st2)
    /\ result_entities g2
       = result_entities
           (graph_result (rglob_tf Sample.one_file "/tf")
              (parse_directory Sample.one_file (__init__ "/tf" Sample.world)).2)
    /\ result_relationships g2
       = result_relationships
           (graph_result (rglob_tf Sample.one_file "/tf")
              (parse_directory Sample.one_file (__init__ "/tf" Sample.world)).2)
         ++ result_relationships
              (graph_result (rglob_tf Sample.one_file "/tf")
                 (parse_directory Sample.one_file (__init__ "/tf" Sample.world)).2)
    /\ total_files (metadata g2)
       = total_files
           (metadata
              (graph_result (rglob_tf Sample.one_file "/tf")
                 (parse_directory Sample.one_file (__init__ "/tf" Sample.world)).2))
    /\ total_entities (metadata g2)
       = total_entities
           (metadata
              (graph_result (rglob_tf Sample.one_file "/tf")
                 (parse_directory Sample.one_file (__init__ "/tf" Sample.world)).2))
    /\ total_relationships (metadata g2)
       = 2 * total_relationships
               (metadata
                  (graph_result (rglob_tf Sample.one_file "/tf")
                     (parse_directory Sample.one_file (__init__ "/tf" Sample.world)).2)).
Proof.
  apply (second_call_repeats_relationships Sample.one_file "/tf" Sample.world).
  vm_compute. reflexivity.
Defined.



(** ** What the extraction leaves alone *)

Lemma respected_stdout_extends (before : list string) :
  respected (diagonal (fun st => before `prefix_of` stdout st)).
Proof.
  split.
  - intros e _ _. by apply rel_diagonal.
  - by intros r st st' _ _ [? <-].
  - intros line. apply rel_diagonal. intros st H. simpl. by apply prefix_app_r.
Qed.

(** X19. [parse_directory] writes no file and leaves the directory of the
    parser as it is, whether it returns or raises; what it prints comes
    after what was printed before. *)
Theorem parse_directory_writes_nothing (fs : FileSystem) (st : State) :
  disk (parse_directory fs st).2 = disk st
  /\ terraform_dir (parse_directory fs st).2 = terraform_dir st
  /\ stdout st `prefix_of` stdout (parse_directory fs st).2.
Proof.
  split_and!.
  - by apply (parse_directory_keeps (disk_is (disk st)) fs st (respected_disk_is _)).
  - by apply (parse_directory_keeps (in_dir (terraform_dir st)) fs st (respected_in_dir _)).
  - by apply (parse_directory_keeps _ fs st (respected_stdout_extends (stdout st))).
Qed.

Lemma save_to_json_run (os : Writer) (fs : FileSystem) (output_path : string)
    (st : State) :
  save_to_json os fs output_path st
  = match parse_directory fs (calculate_layout st).2 with
    | (Return g, st1) =>
        match os output_path with
        | Written _ =>
            (Return tt,
             {| terraform_dir := terraform_dir st1; entities := entities st1;
                relationships := relationships st1;
                stdout := stdout st1 ++ ["Terraform entities saved to " +:+ output_path];
                disk := dict_set (disk st1) output_path g |})
        | WriteFails msg => (Raise (OSError msg), st1)
        end
    | (Raise e, st1) => (Raise e, st1)
    end.
Proof.
  unfold save_to_json, bind, write_json. cbn [calculate_layout snd].
  destruct (parse_directory fs _) as [[g|e] st1]; [|done].
  by destruct (os output_path).
Qed.

(** X20. [save_to_json] touches no file but [output_path]. When it
    returns, the document at [output_path] is the result of an extraction
    made after the layout, and the last line printed names the path; when
    it raises, because the extraction or the write does, nothing has been
    written. *)
Theorem save_to_json_writes_one_file (os : Writer) (fs : FileSystem)
    (output_path : string) (st : State) :
  (forall path, path <> output_path ->
     dict_get (disk (save_to_json os fs output_path st).2) path = dict_get (disk st) path)
  /\ match (save_to_json os fs output_path st).1 with
     | Return _ =>
         exists g st1,
           parse_directory fs (calculate_layout st).2 = (Return g, st1)
           /\ dict_get (disk (save_to_json os fs output_path st).2) output_path = Some g
           /\ stdout (save_to_json os fs output_path st).2
              = stdout st1 ++ ["Terraform entities saved to " +:+ output_path]
     | Raise _ => disk (save_to_json os fs output_path st).2 = disk st
     end.
Proof.
  pose proof (parse_directory_keeps (disk_is (disk st)) fs (calculate_layout st).2
                (respected_disk_is _) eq_refl) as Hdisk.
  unfold disk_is in Hdisk. rewrite save_to_json_run.
  destruct (parse_directory fs (calculate_layout st).2) as [[g|e] st1] eqn:Hparse;
    [destruct (os output_path) as [msg|after] |]; cbn [fst snd disk stdout] in *.
  - split; [by rewrite Hdisk | done].
  - split.
    + intros path Hne. rewrite Hdisk. by apply dict_get_set_ne, not_eq_sym.
    + exists g, st1. split_and!; [done | apply dict_get_set_eq | done].
  - split; [by rewrite Hdisk | done].
Qed.

(** ** Exceptions that reach the caller *)

Lemma for_each_raised {X} (xs : list X) (body : X -> M unit) (st st' : State) (e : Exn) :
  for_each xs body st = (Raise e, st') ->
  exists x st0, x ∈ xs /\ body x st0 = (Raise e, st').
Proof.
  revert st. induction xs as [|x xs IH]; intros st; simpl; [done |].
  unfold bind. destruct (body x st) as [[[]|e'] s1] eqn:Hx.
  - intros (y & s0 & Hy & Hbody)%IH. exists y, s0. split; [|done].
    by apply list_elem_of_further.
  - intros [= -> ->]. exists x, st. split; [apply list_elem_of_here | done].
Qed.

Lemma parse_file_raised (file : string * LoadOutcome) (st st' : State) (e : Exn) :
  _parse_file file st = (Raise e, st') -> caught e = false.
Proof.
  destruct file as [file_path load]. unfold _parse_file, try_except.
  destruct (bind _ _ st) as [[[]|e'] s1]; [done |].
  destruct e'; try (by intros [= <- _]); done.
Qed.

(** X12. A syntax error never reaches the caller of [parse_directory]:
    whatever the directory holds and whatever state the parser is in, an
    exception it raises is not one of the two that [_parse_file] catches. *)
Theorem syntax_errors_never_propagate (fs : FileSystem) (st st' : State) (e : Exn) :
  parse_directory fs st = (Raise e, st') -> caught e = false.
Proof.
  rewrite parse_directory_result. simpl.
  destruct (for_each _ _ st) as [[[]|e'] s1] eqn:Hrun; [done |].
  intros [= -> ->]. apply for_each_raised in Hrun as (file & s0 & _ & Hfile).
  by eapply parse_file_raised.
Qed.

Lemma syntax_errors_never_propagate_witness :
  caught (TypeError "object is not iterable") = false.
Proof.
  apply (syntax_errors_never_propagate
           (fun _ => Directory [("/tf/odd.tf", Loaded [("resource", VNum 1)])])
           (__init__ "/tf" Sample.world) (__init__ "/tf" Sample.world)).
  reflexivity.
Defined.

(** ** The directory of a request *)

(** X22. The mapping of the route is applied once and for all: a mapped
    directory is mapped to itself. *)
Theorem map_directory_is_stable (directory : string) :
  map_directory (map_directory directory) = map_directory directory.
Proof.
  unfold map_directory at 2 3.
  destruct (dict_get path_mappings directory) as [mapped|] eqn:E.
  - cbn in E.
    repeat match type of E with
           | (if ?b then _ else _) = _ => destruct b; [by injection E as <- |]
           end.
    done.
  - destruct (Str.startswith directory "project/") eqn:Ep.
    + reflexivity.
    + unfold map_directory. by rewrite E, Ep.
Qed.

(** X23. An absolute path is taken as it is given. *)
Theorem absolute_directory_is_kept (directory : string) :
  Str.startswith directory "/" = true -> map_directory directory = directory.
Proof.
  destruct directory as [|c rest]; [done |]. rewrite startswith_cons.
  intros [Hc _]%andb_true_iff. apply Ascii.eqb_eq in Hc as <-. reflexivity.
Qed.

Lemma absolute_directory_is_kept_witness :
  map_directory "/etc/terraform" = "/etc/terraform".
Proof. apply (absolute_directory_is_kept "/etc/terraform"). reflexivity. Defined.

(** ** Helpers of the dependency report *)

Lemma strip_prefix_inv (p text rest : string) :
  Str.strip_prefix p text = Some rest -> text = p +:+ rest.
Proof.
  revert text. induction p as [|a p IH]; intros text; simpl; [by intros [= ->] |].
  destruct text as [|b text]; [done |]. destruct (Ascii.eqb a b) eqn:E; [|done].
  apply Ascii.eqb_eq in E as ->. by intros ->%IH.
Qed.

Lemma startswith_inv (text p : string) :
  Str.startswith text p = true -> exists b, text = p +:+ b.
Proof.
  unfold Str.startswith. destruct (Str.strip_prefix p text) as [rest|] eqn:E; [|done].
  intros _. exists rest. by apply strip_prefix_inv.
Qed.

Lemma contains_inv (text p : string) :
  Str.contains text p = true -> exists a b, text = a +:+ p +:+ b.
Proof.
  induction text as [|c text IH]; simpl.
  - rewrite orb_false_r. intros (b & Hb)%startswith_inv. by exists "", b.
  - intros [H|H]%orb_true_iff.
    + apply startswith_inv in H as (b & Hb). by exists "", b.
    + destruct (IH H) as (a & b & ->). by exists (String c a), b.
Qed.

Lemma contains_extend (pre text post p : string) :
  Str.contains text p = true -> Str.contains (pre +:+ text +:+ post) p = true.
Proof.
  intros (a & b & ->)%contains_inv.
  replace (pre +:+ (a +:+ p +:+ b) +:+ post) with ((pre +:+ a) +:+ p +:+ (b +:+ post)).
  - apply contains_append.
  - by rewrite !string_append_assoc.
Qed.

(** X24. A path is skipped as soon as a pattern occurs anywhere in its
    text: with a path, every path whose text contains it is skipped,
    whatever comes before and after. *)
Theorem skipped_paths_are_closed (pre path post : string) :
  _should_skip_path path = true ->
  _should_skip_path (pre +:+ path +:+ post) = true.
Proof.
  unfold _should_skip_path. rewrite !existsb_exists.
  intros (p & Hp & Hc). exists p. split; [done |]. by apply contains_extend.
Qed.

Lemma skipped_paths_are_closed_witness :
  _should_skip_path ("modules/net" +:+ "work" +:+ "/main.tf") = true.
Proof. apply (skipped_paths_are_closed "modules/net" "work" "/main.tf"). reflexivity. Defined.

Lemma all_word_mermaid_safe (text : string) : all_word (_mermaid_safe text) = true.
Proof.
  induction text as [|c text IH]; simpl; [done |].
  rewrite IH, andb_true_r. by destruct (Re.word_char c) eqn:E.
Qed.

(** X25. [_mermaid_safe] gives a name of the same length, made of letters,
    digits and underscores only, and leaves such a name as it is. *)
Theorem mermaid_safe_is_a_name (text : string) :
  String.length (_mermaid_safe text) = String.length text
  /\ all_word (_mermaid_safe text) = true
  /\ _mermaid_safe (_mermaid_safe text) = _mermaid_safe text.
Proof.
  split_and!.
  - induction text as [|c text IH]; simpl; [done | by rewrite IH].
  - apply all_word_mermaid_safe.
  - induction text as [|c text IH]; simpl; [done |]. rewrite IH.
    by destruct (Re.word_char c) eqn:E; [rewrite E |].
Qed.

Lemma replace_char (a c : ascii) (new text : string) :
  Str.replace_from (String a EmptyString) new (String c text) 0
  = if Ascii.eqb a c
    then new +:+ Str.replace_from (String a EmptyString) new text 0
    else String c (Str.replace_from (String a EmptyString) new text 0).
Proof.
  cbn [Str.replace_from]. rewrite startswith_cons, startswith_empty, andb_true_r.
  by destruct (Ascii.eqb a c).
Qed.

Lemma escape_quotes_escaped (text : string) (b : bool) :
  quotes_escaped b
    (Str.replace text (String double_quote EmptyString)
       (String backslash (String double_quote EmptyString))) = true.
Proof.
  unfold Str.replace. revert b. induction text as [|c text IH]; intros b; [done |].
  rewrite replace_char. destruct (Ascii.eqb double_quote c) eqn:E.
  - cbn [String.append quotes_escaped]. rewrite IH. done.
  - cbn [quotes_escaped]. rewrite IH, andb_true_r.
    rewrite Ascii.eqb_sym, E. done.
Qed.

Lemma escape_newlines_keeps (s : string) (b : bool) :
  quotes_escaped b s = true ->
  quotes_escaped b
    (Str.replace s (String newline EmptyString)
       (String backslash (String "n"%char EmptyString))) = true.
Proof.
  unfold Str.replace. revert b. induction s as [|c s IH]; intros b; [done |].
  rewrite replace_char. cbn [quotes_escaped]. intros [Hc Hs]%andb_true_iff.
  destruct (Ascii.eqb newline c) eqn:E.
  - apply Ascii.eqb_eq in E as <-. cbn [String.append quotes_escaped].
    apply IH in Hs. exact Hs.
  - cbn [quotes_escaped]. by rewrite Hc, IH.
Qed.

Lemma escape_newlines_none (s : string) :
  all_chars (fun c => negb (Ascii.eqb newline c))
    (Str.replace s (String newline EmptyString)
       (String backslash (String "n"%char EmptyString))) = true.
Proof.
  unfold Str.replace. induction s as [|c s IH]; [done |].
  rewrite replace_char. destruct (Ascii.eqb newline c) eqn:E.
  - cbn [String.append all_chars]. by rewrite IH.
  - cbn [all_chars]. by rewrite E, IH.
Qed.

(** X26. In what [_dot_safe] gives there is no line break, and every
    double quote comes right after a backslash. *)
Theorem dot_safe_escapes (text : string) :
  all_chars (fun c => negb (Ascii.eqb newline c)) (_dot_safe text) = true
  /\ quotes_escaped false (_dot_safe text) = true.
Proof.
  split.
  - apply escape_newlines_none.
  - apply escape_newlines_keeps, escape_quotes_escaped.
Qed.

(** ** The properties on the fixture *)

Lemma entity_identifiers_unique_witness : NoDup (map id (result_entities Run.result)).
Proof.
  apply (entity_identifiers_unique Sample.temp_tf_dir (__init__ "/tmp/tf" Sample.world)
           Run.state Run.result);
    [apply reachable_init | vm_compute; reflexivity].
Defined.

Lemma entity_identifier_format_witness :
  exists e,
    e ∈ result_entities Run.result
    /\ id e = identifier_of (category e) (type e) (name e)
    /\ category e ∈ categories.
Proof.
  eexists. split; [vm_compute; apply list_elem_of_here |].
  apply (entity_identifier_format Sample.temp_tf_dir (__init__ "/tmp/tf" Sample.world)
           Run.state Run.result);
    [apply reachable_init | vm_compute; reflexivity | vm_compute; apply list_elem_of_here].
Defined.

Lemma variables_and_providers_are_leaves_witness :
  exists e,
    e ∈ result_entities Run.result
    /\ category e = "variable"
    /\ dependencies e = []
    /\ forall r, r ∈ result_relationships Run.result -> source r <> id e.
Proof.
  eexists. split; [vm_compute; do 5 apply list_elem_of_further; apply list_elem_of_here |].
  split; [reflexivity |].
  apply (variables_and_providers_are_leaves Sample.temp_tf_dir
           (__init__ "/tmp/tf" Sample.world) Run.state Run.result).
  - apply reachable_init.
  - vm_compute. reflexivity.
  - vm_compute. do 5 apply list_elem_of_further. apply list_elem_of_here.
  - left. reflexivity.
Defined.

Lemma entity_provider_field_witness :
  exists e,
    e ∈ result_entities Run.result
    /\ match provider e with
       | Some p =>
           (category e = "provider" /\ p = name e)
           \/ ((category e = "resource" \/ category e = "data")
               /\ Str.startswith (type e) p = true
               /\ all_chars (fun c => negb (Ascii.eqb c "_")) p = true
               /\ (p = type e \/ Str.startswith (type e) (p +:+ "_") = true))
       | None => category e = "module" \/ category e = "variable" \/ category e = "output"
       end.
Proof.
  eexists. split; [vm_compute; apply list_elem_of_here |].
  apply (entity_provider_field Sample.temp_tf_dir (__init__ "/tmp/tf" Sample.world)
           Run.state Run.result);
    [apply reachable_init | vm_compute; reflexivity | vm_compute; apply list_elem_of_here].
Defined.

Lemma every_dependency_has_its_edge_witness :
  exists e dep,
    e ∈ result_entities Run.result
    /\ dep ∈ dependencies e
    /\ {| source := id e; target := dep;
          kind := if String.eqb (category e) "output" then "references" else "depends_on" |}
       ∈ result_relationships Run.result.
Proof.
  eexists _, _.
  split; [vm_compute; apply list_elem_of_further; apply list_elem_of_here |].
  split; [vm_compute; apply list_elem_of_here |].
  apply (every_dependency_has_its_edge Sample.temp_tf_dir
           (__init__ "/tmp/tf" Sample.world) Run.state Run.result).
  - apply reachable_init.
  - vm_compute. reflexivity.
  - vm_compute. apply list_elem_of_further. apply list_elem_of_here.
  - vm_compute. apply list_elem_of_here.
Defined.

Lemma parse_after_layout_discards_positions_witness :
  exists g2 st2,
    parse_directory Sample.temp_tf_dir (calculate_layout Run.state).2 = (Return g2, st2)
    /\ result_entities g2 = result_entities Run.result
    /\ Forall (fun e => position e = None) (result_entities g2).
Proof.
  apply (parse_after_layout_discards_positions Sample.temp_tf_dir "/tmp/tf" Sample.world
           Run.result Run.state).
  vm_compute. reflexivity.
Defined.

Lemma layout_is_a_grid_witness :
  length (entities (calculate_layout Run.state).2) = length (entities Run.state)
  /\ relationships (calculate_layout Run.state).2 = relationships Run.state
  /\ forall i key e,
       entities Run.state !! i = Some (key, e) ->
       entities (calculate_layout Run.state).2 !! i
       = Some (key, with_position
                      (cell (map category_of (entities Run.state)) i (category e)) e).
Proof.
  apply (layout_is_a_grid Run.state).
  apply (bool_decide_unpack _). vm_compute. exact I.
Defined.

Lemma layout_cells_are_distinct_witness :
  exists item1 item2,
    entities (calculate_layout Run.state).2 !! 3 = Some item1
    /\ entities (calculate_layout Run.state).2 !! 4 = Some item2
    /\ position item1.2 <> position item2.2.
Proof.
  eexists _, _. split; [vm_compute; reflexivity |]. split; [vm_compute; reflexivity |].
  apply (layout_cells_are_distinct Run.state 3 4).
  - apply (bool_decide_unpack _). vm_compute. exact I.
  - vm_compute. reflexivity.
  - vm_compute. reflexivity.
  - lia.
Defined.

Lemma layout_is_idempotent_witness :
  calculate_layout (calculate_layout Run.state).2 = calculate_layout Run.state.
Proof.
  apply (layout_is_idempotent Run.state).
  apply (bool_decide_unpack _). vm_compute. exact I.
Defined.

Lemma save_to_json_writes_one_file_witness :
  (forall path, path <> "out.json" ->
     dict_get (disk (save_to_json (Sample.keeps Sample.temp_tf_dir) Sample.temp_tf_dir "out.json" Run.state).2) path
     = dict_get (disk Run.state) path)
  /\ match (save_to_json (Sample.keeps Sample.temp_tf_dir) Sample.temp_tf_dir "out.json" Run.state).1 with
     | Return _ =>
         exists g st1,
           parse_directory Sample.temp_tf_dir (calculate_layout Run.state).2
           = (Return g, st1)
           /\ dict_get (disk (save_to_json (Sample.keeps Sample.temp_tf_dir) Sample.temp_tf_dir "out.json" Run.state).2)
                "out.json" = Some g
           /\ stdout (save_to_json (Sample.keeps Sample.temp_tf_dir) Sample.temp_tf_dir "out.json" Run.state).2
              = stdout st1 ++ ["Terraform entities saved to " +:+ "out.json"]
     | Raise _ =>
         disk (save_to_json (Sample.keeps Sample.temp_tf_dir) Sample.temp_tf_dir "out.json" Run.state).2 = disk Run.state
     end.
Proof.
  exact (save_to_json_writes_one_file (Sample.keeps Sample.temp_tf_dir) Sample.temp_tf_dir
           "out.json" Run.state).
Defined.

(** ** What [_parse_file] does with a well-formed file *)

Lemma for_each_exact {X} (xs : list X) (body : X -> M unit) (step : State -> X -> State)
    (st : State) :
  (forall x s, x ∈ xs -> body x s = (Return tt, step s x)) ->
  for_each xs body st = (Return tt, fold_left step xs st).
Proof.
  revert st. induction xs as [|x xs IH]; intros st H; [done |].
  cbn [for_each fold_left]. unfold bind. rewrite H by apply list_elem_of_here.
  apply IH. intros y s Hy. apply H. by apply list_elem_of_further.
Qed.

Lemma fold_left_concat_map {X Y S} (step : S -> Y -> S) (inner : X -> list Y)
    (xs : list X) (s : S) :
  fold_left step (concat (map inner xs)) s
  = fold_left (fun s x => fold_left step (inner x) s) xs s.
Proof.
  revert s. induction xs as [|x xs IH]; intros s; [done |].
  cbn [map concat fold_left]. by rewrite fold_left_app, IH.
Qed.

Lemma fold_left_map {X Y S} (step : S -> Y -> S) (f : X -> Y) (xs : list X) (s : S) :
  fold_left step (map f xs) s = fold_left (fun s x => step s (f x)) xs s.
Proof. revert s. induction xs as [|x xs IH]; intros s; [done | apply IH]. Qed.

(** One block with dependencies: the entity is stored, then its
    relationships are appended. *)
Lemma declare_block (e : TerraformEntity) (config : Value) (st : State) :
  sound_block config = true ->
  dependencies e = deps_of config ->
  (let* deps := lift (_extract_dependencies config) in
   let* _ := set_entity (id e)
               {| id := id e; type := type e; category := category e; name := name e;
                  provider := provider e; attributes := attributes e;
                  dependencies := deps; position := position e |} in
   create_relationships (id e) deps (edge_kind (category e)))%parser st
  = (Return tt, declare st e).
Proof.
  intros (deps & Hdeps)%sound_block_returns He. unfold deps_of in He. rewrite Hdeps in He.
  unfold bind, lift. rewrite Hdeps. cbn [set_entity]. rewrite create_relationships_state.
  unfold declare. cbn. rewrite He. subst deps. by destruct e.
Qed.

Lemma named_blocks_exact (ok : Value -> bool) (v : Value)
    (body : string * Value -> M unit) (step : State -> string * Value -> State)
    (st : State) :
  section_of ok v = true ->
  (forall block s, ok block.2 = true -> body block s = (Return tt, step s block)) ->
  (let* blocks := lift (py_iter v) in
   for_each blocks (fun b => let* by_name := lift (py_items b) in for_each by_name body))%parser
    st
  = (Return tt, fold_left step (named_blocks v) st).
Proof.
  intros Hv Hbody. destruct (py_iter_section ok v Hv) as (blocks & Hiter & Hblocks).
  destruct v as [| | | | |blocks']; try done. injection Hiter as ->.
  unfold bind at 1, lift at 1. cbn [py_iter named_blocks].
  rewrite fold_left_concat_map. apply for_each_exact.
  intros b s (items & -> & Hitems)%Hblocks. unfold bind, lift. cbn [py_items].
  apply for_each_exact. intros block s' Hin. apply Hbody.
  by apply (forallb_elem _ _ _ Hitems).
Qed.

Lemma typed_blocks_exact (v : Value)
    (body : string -> string * Value -> M unit)
    (step : State -> string * (string * Value) -> State) (st : State) :
  section_of two_level v = true ->
  (forall t block s, sound_block block.2 = true ->
     body t block s = (Return tt, step s (t, block))) ->
  (let* blocks := lift (py_iter v) in
   for_each blocks (fun b =>
     let* by_type := lift (py_items b) in
     for_each by_type (fun '(t, instances) =>
       let* by_name := lift (py_items instances) in
       for_each by_name (body t))))%parser st
  = (Return tt, fold_left step (typed_blocks v) st).
Proof.
  intros Hv Hbody. unfold typed_blocks. rewrite fold_left_concat_map.
  apply (named_blocks_exact two_level); [done |].
  intros [t instances] s Hinst. cbn [snd] in Hinst.
  destruct instances as [| | | |by_name|]; try done.
  unfold bind, lift. cbn [py_items]. rewrite fold_left_map.
  apply for_each_exact. intros block s' Hin. apply Hbody.
  by apply (forallb_elem _ _ _ Hinst).
Qed.

Lemma extract_resources_exact (v : Value) (st : State) :
  section_of two_level v = true ->
  _extract_resources v st
  = (Return tt, fold_left declare (map resource_entity (typed_blocks v)) st).
Proof.
  intros Hv. rewrite fold_left_map.
  apply (typed_blocks_exact v
           (fun t '(n, config) =>
              let entity_id := "resource." +:+ t +:+ "." +:+ n in
              let provider_ := Str.split_first "_" t in
              let* deps := lift (_extract_dependencies config) in
              let entity :=
                {| id := entity_id; type := t; category := "resource";
                   name := n; provider := Some provider_; attributes := config;
                   dependencies := deps; position := None |} in
              let* _ := set_entity entity_id entity in
              create_relationships entity_id deps "depends_on")%parser); [done |].
  intros t [n config] s Hsound.
  exact (declare_block (resource_entity (t, (n, config))) config s Hsound eq_refl).
Qed.

Lemma extract_data_sources_exact (v : Value) (st : State) :
  section_of two_level v = true ->
  _extract_data_sources v st
  = (Return tt, fold_left declare (map data_entity (typed_blocks v)) st).
Proof.
  intros Hv. rewrite fold_left_map.
  apply (typed_blocks_exact v
           (fun t '(n, config) =>
              let entity_id := "data." +:+ t +:+ "." +:+ n in
              let provider_ := Str.split_first "_" t in
              let* deps := lift (_extract_dependencies config) in
              let entity :=
                {| id := entity_id; type := t; category := "data";
                   name := n; provider := Some provider_; attributes := config;
                   dependencies := deps; position := None |} in
              let* _ := set_entity entity_id entity in
              create_relationships entity_id deps "depends_on")%parser); [done |].
  intros t [n config] s Hsound.
  exact (declare_block (data_entity (t, (n, config))) config s Hsound eq_refl).
Qed.

Lemma extract_modules_exact (v : Value) (st : State) :
  section_of sound_block v = true ->
  _extract_modules v st
  = (Return tt, fold_left declare (map module_entity (named_blocks v)) st).
Proof.
  intros Hv. rewrite fold_left_map.
  apply (named_blocks_exact sound_block); [done |].
  intros [n config] s Hsound.
  exact (declare_block (module_entity (n, config)) config s Hsound eq_refl).
Qed.

Lemma extract_outputs_exact (v : Value) (st : State) :
  section_of sound_block v = true ->
  _extract_outputs v st
  = (Return tt, fold_left declare (map output_entity (named_blocks v)) st).
Proof.
  intros Hv. rewrite fold_left_map.
  apply (named_blocks_exact sound_block); [done |].
  intros [n config] s Hsound.
  exact (declare_block (output_entity (n, config)) config s Hsound eq_refl).
Qed.

Lemma declare_leaf (e : TerraformEntity) (st : State) :
  dependencies e = [] -> set_entity (id e) e st = (Return tt, declare st e).
Proof. intros He. unfold declare. rewrite He. simpl. by rewrite app_nil_r. Qed.

Lemma extract_variables_exact (v : Value) (st : State) :
  section_of (fun _ => true) v = true ->
  _extract_variables v st
  = (Return tt, fold_left declare (map variable_entity (named_blocks v)) st).
Proof.
  intros Hv. rewrite fold_left_map.
  apply (named_blocks_exact (fun _ => true)); [done |].
  intros [n config] s _. exact (declare_leaf (variable_entity (n, config)) s eq_refl).
Qed.

Lemma extract_providers_exact (v : Value) (st : State) :
  section_of (fun _ => true) v = true ->
  _extract_providers v st
  = (Return tt, fold_left declare (map provider_entity (named_blocks v)) st).
Proof.
  intros Hv. rewrite fold_left_map.
  apply (named_blocks_exact (fun _ => true)); [done |].
  intros [n config] s _. exact (declare_leaf (provider_entity (n, config)) s eq_refl).
Qed.

Lemma when_present_exact (parsed : list (string * Value)) (key : string)
    (ok : Value -> bool) (extract : Value -> M unit)
    (blocks : Value -> list TerraformEntity) (st : State) :
  section_ok parsed key ok = true ->
  blocks (VList []) = [] ->
  (forall v s, ok v = true -> extract v s = (Return tt, fold_left declare (blocks v) s)) ->
  when_present parsed key extract st
  = (Return tt, fold_left declare (blocks (section parsed key)) st).
Proof.
  unfold section_ok, when_present, section. destruct (dict_get parsed key) as [v|]; simpl.
  - intros Hok _ H. by apply H.
  - intros _ -> _. done.
Qed.

(** A well-formed file is extracted block by block: each block stores its
    entity and appends its relationships. *)
Lemma parse_file_exact (file_path : string) (parsed : list (string * Value)) (st : State) :
  well_formed_file parsed = true ->
  _parse_file (file_path, Loaded parsed) st
  = (Return tt, fold_left declare (declared parsed) st).
Proof.
  intros Hwf. pose proof Hwf as H. unfold well_formed_file in H.
  repeat (apply andb_true_iff in H as [H ?]).
  unfold declared. rewrite !fold_left_app.
  assert (forall (m : M unit) s s', m s = (Return tt, s') ->
            forall k : unit -> M unit, bind m k s = k tt s') as Hstep.
  { intros m s s' Hm k. unfold bind. by rewrite Hm. }
  unfold _parse_file, try_except.
  match goal with |- context [match ?body st with _ => _ end] =>
    assert (body st = (Return tt,
              fold_left declare (map provider_entity (named_blocks (section parsed "provider")))
               (fold_left declare (map output_entity (named_blocks (section parsed "output")))
                (fold_left declare (map variable_entity (named_blocks (section parsed "variable")))
                 (fold_left declare (map module_entity (named_blocks (section parsed "module")))
                  (fold_left declare (map data_entity (typed_blocks (section parsed "data")))
                   (fold_left declare
                      (map resource_entity (typed_blocks (section parsed "resource")))
                      st))))))) as ->; [|done]
  end.
  unfold bind at 1, lift at 1.
  rewrite (Hstep _ _ _ (when_present_exact parsed "resource" (section_of two_level) _
                          (fun v => map resource_entity (typed_blocks v)) st
                          ltac:(assumption) eq_refl extract_resources_exact)).
  rewrite (Hstep _ _ _ (when_present_exact parsed "data" (section_of two_level) _
                          (fun v => map data_entity (typed_blocks v)) _
                          ltac:(assumption) eq_refl extract_data_sources_exact)).
  rewrite (Hstep _ _ _ (when_present_exact parsed "module" (section_of sound_block) _
                          (fun v => map module_entity (named_blocks v)) _
                          ltac:(assumption) eq_refl extract_modules_exact)).
  rewrite (Hstep _ _ _ (when_present_exact parsed "variable" (section_of (fun _ => true)) _
                          (fun v => map variable_entity (named_blocks v)) _
                          ltac:(assumption) eq_refl extract_variables_exact)).
  rewrite (Hstep _ _ _ (when_present_exact parsed "output" (section_of sound_block) _
                          (fun v => map output_entity (named_blocks v)) _
                          ltac:(assumption) eq_refl extract_outputs_exact)).
  by apply (when_present_exact parsed "provider" (section_of (fun _ => true)) _
              (fun v => map provider_entity (named_blocks v)));
    [| | apply extract_providers_exact].
Qed.

Lemma fold_declare_entities (es : list TerraformEntity) (st : State) :
  entities (fold_left declare es st)
  = store_all (map (fun e => (id e, e)) es) (entities st).
Proof. revert st. induction es as [|e es IH]; intros st; [done | apply IH]. Qed.

Lemma fold_declare_relationships (es : list TerraformEntity) (st : State) :
  relationships (fold_left declare es st)
  = relationships st ++ concat (map (fun e => map (edge_of e) (dependencies e)) es).
Proof.
  revert st. induction es as [|e es IH]; intros st; simpl.
  - by rewrite app_nil_r.
  - rewrite IH. simpl. by rewrite <- app_assoc.
Qed.

Lemma fold_declare_stdout (es : list TerraformEntity) (st : State) :
  stdout (fold_left declare es st) = stdout st.
Proof.
  revert st. induction es as [|e es IH]; intros st; [done | exact (IH (declare st e))].
Qed.

Lemma store_all_elem ops d (k : string) (e : TerraformEntity) :
  (k, e) ∈ store_all ops d -> (k, e) ∈ d \/ (k, e) ∈ ops.
Proof.
  revert d. induction ops as [|[k0 e0] ops IH]; intros d; simpl; [by left |].
  intros [H|H]%IH; [|right; by apply list_elem_of_further].
  assert (forall d', (k, e) ∈ dict_set d' k0 e0 -> (k, e) ∈ d' \/ (k, e) = (k0, e0)) as Hset.
  { induction d' as [|[k1 e1] d' IHd]; simpl.
    - intros ->%list_elem_of_singleton. by right.
    - destruct (String.eqb k1 k0) eqn:E.
      + apply String.eqb_eq in E as ->.
        intros [->|Hin]%elem_of_cons; [by right | left; by apply list_elem_of_further].
      + intros [->|Hin]%elem_of_cons; [left; apply list_elem_of_here |].
        destruct (IHd Hin) as [?|?]; [left; by apply list_elem_of_further | by right]. }
  destruct (Hset _ H) as [?| ->]; [by left | right; apply list_elem_of_here].
Qed.

(** The entities and relationships that a well-formed file, extracted by a
    new parser, leaves in a result. *)
Lemma declared_result (files : list (string * LoadOutcome)) (es : list TerraformEntity)
    (st : State) :
  entities st = store_all (map (fun e => (id e, e)) es) [] ->
  (forall e, e ∈ es -> id e ∈ map id (result_entities (graph_result files st)))
  /\ (forall e, e ∈ result_entities (graph_result files st) -> e ∈ es).
Proof.
  intros Hents. unfold graph_result. cbn [result_entities]. rewrite Hents.
  set (ops := map (fun e => (id e, e)) es).
  assert (forall k e, (k, e) ∈ store_all ops [] -> k = id e /\ e ∈ es) as Hkeyed.
  { intros k e [?%elem_of_nil|Hin]%store_all_elem; [done |].
    apply list_elem_of_fmap in Hin as (e' & [= -> ->] & He'). done. }
  split.
  - intros e He.
    assert (id e ∈ map fst (store_all ops [])) as Hk.
    { apply store_all_keys_cover. unfold ops. rewrite <- list_fmap_compose.
      apply list_elem_of_fmap. by exists e. }
    apply list_elem_of_fmap in Hk as ([k e'] & Hid & Hin). simpl in Hid. subst k.
    destruct (Hkeyed _ _ Hin) as [Hid _].
    apply list_elem_of_fmap. exists e'. split; [done |].
    apply list_elem_of_fmap. by exists (id e, e').
  - intros e ([k e'] & -> & Hin)%list_elem_of_fmap. by apply (Hkeyed k).
Qed.

(** C8: a directory with one well-formed file and one file that the loader
    rejects with a syntax error, in either order, is extracted without an
    exception. The result counts two files; every block of the well-formed
    file has its entity in the result, every entity of the result is the
    entity of one of these blocks, and the relationships are those of
    these blocks, dependency by dependency; they are the entities and
    relationships that the well-formed file alone gives. The error has been
    printed. *)
Theorem C8_malformed_file_isolated (fs : FileSystem) (dir : string) (w : World)
    (good_path bad_path : string) (parsed : list (string * Value)) (msg : string) :
  well_formed_file parsed = true ->
  fs dir = Directory [(good_path, Loaded parsed); (bad_path, LoadFails (LarkError msg))]
  \/ fs dir = Directory [(bad_path, LoadFails (LarkError msg)); (good_path, Loaded parsed)] ->
  exists g st g1 st1,
    parse_directory fs (__init__ dir w) = (Return g, st)
    /\ total_files (metadata g) = 2
    /\ (forall e, e ∈ declared parsed -> id e ∈ map id (result_entities g))
    /\ (forall e, e ∈ result_entities g -> e ∈ declared parsed)
    /\ result_entities g
       = map snd (store_all (map (fun e => (id e, e)) (declared parsed)) [])
    /\ result_relationships g
       = concat (map (fun e => map (edge_of e) (dependencies e)) (declared parsed))
    /\ parse_directory (fun _ => Directory [(good_path, Loaded parsed)]) (__init__ dir w)
       = (Return g1, st1)
    /\ result_entities g = result_entities g1
    /\ result_relationships g = result_relationships g1
    /\ total_entities (metadata g) = total_entities (metadata g1)
    /\ total_relationships (metadata g) = total_relationships (metadata g1)
    /\ printed ("Error parsing " +:+ bad_path +:+ ": " +:+ msg) st.
Proof.
  intros Hwf Hfs.
  rewrite !parse_directory_result. unfold rglob_tf. cbn [terraform_dir __init__].
  set (st0 := __init__ dir w).
  set (line := "Error parsing " +:+ bad_path +:+ ": " +:+ msg).
  set (es := declared parsed).
  destruct Hfs as [-> | ->]; cbn [for_each]; unfold bind;
    rewrite ?parse_file_syntax_error, ?parse_file_exact by done; cbn [print ret];
    rewrite ?parse_file_exact by done; cbn [print ret]; fold line; fold es;
    eexists _, _, _, _; (split; [reflexivity |]); (split; [reflexivity |]).
  - destruct (declared_result
                [(good_path, Loaded parsed); (bad_path, LoadFails (LarkError msg))]
                es (print line (fold_left declare es st0)).2) as [H1 H2].
    { cbn [print snd entities]. by rewrite fold_declare_entities. }
    split; [exact H1 |]. split; [exact H2 |].
    unfold graph_result.
    cbn [result_entities result_relationships metadata total_entities total_relationships
         entities relationships].
    rewrite !fold_declare_entities, !fold_declare_relationships.
    split_and!; try reflexivity.
    unfold printed. cbn [stdout]. rewrite fold_declare_stdout. apply elem_of_app. right.
    apply list_elem_of_here.
  - destruct (declared_result
                [(bad_path, LoadFails (LarkError msg)); (good_path, Loaded parsed)]
                es (fold_left declare es (print line st0).2)) as [H1 H2].
    { by rewrite fold_declare_entities. }
    split; [exact H1 |]. split; [exact H2 |].
    unfold graph_result.
    cbn [result_entities result_relationships metadata total_entities total_relationships].
    rewrite !fold_declare_entities, !fold_declare_relationships.
    split_and!; try reflexivity.
    unfold printed. rewrite fold_declare_stdout. apply elem_of_app. right.
    apply list_elem_of_here.
Qed.

Lemma C8_malformed_file_isolated_witness :
  well_formed_file Sample.main_tf = true
  /\ exists g st,
       parse_directory Sample.with_broken_file (__init__ "/tf" Sample.world) = (Return g, st)
       /\ total_files (metadata g) = 2
       /\ map id (result_entities g)
          = ["resource.aws_vpc.main"; "resource.aws_subnet.public"; "output.subnet_id"]
       /\ result_relationships g
          = [ {| source := "resource.aws_subnet.public"; target := "resource.aws_vpc.main";
                 kind := "depends_on" |};
              {| source := "output.subnet_id"; target := "resource.aws_subnet.public";
                 kind := "references" |} ]
       /\ printed "Error parsing /tf/broken.tf: Unexpected token" st.
Proof.
  split; [reflexivity |].
  destruct (C8_malformed_file_isolated Sample.with_broken_file "/tf" Sample.world
              "/tf/main.tf" "/tf/broken.tf" Sample.main_tf "Unexpected token")
    as (g & st & g1 & st1 & Hrun & Hfiles & _ & _ & Hents & Hrels & _ & _ & _ & _ & _ & Hline).
  - reflexivity.
  - left. reflexivity.
  - exists g, st. split; [exact Hrun |]. split; [exact Hfiles |].
    split; [rewrite Hents; vm_compute; reflexivity |].
    split; [rewrite Hrels; vm_compute; reflexivity | exact Hline].
Defined.
